(** * git-recent: the interactive branch selector, embedded and verified

    The repository holds three programs, each a complete [package main]:

    - [src/unnamed/part_001]: local branches only (module [Local]);
    - [src/main.go]: adds the [-r]/[--remote] flag (module [Remote]);
    - [src/unnamed/part_000]: adds the [/] filter on top (module [Filter]).

    Each program is a bubbletea model: [Update] maps a message to a new
    model and a command, [tea.Quit] ending the event loop, after which
    [main] decides whether to run [git checkout].  The embedding is
    shallow: Go's [int] is [Z] (the cursor and the offset stay between 0
    and the length of the list, lemma [window_always], so the 64-bit
    wrap-around is never reached), a [string] is a sequence of bytes
    ([String.string]), a slice is a [list], [error] is [option error],
    and the two calls into [os/exec] are fields of a [System] record.
    Go's [strings.ToLower] is a parameter (class [Lowering]): the theorems
    on the filter hold for every function that lowers ASCII text as Go
    does.  What [flag.Parse()] did and the error that may end [p.Run()]
    are inputs of [main]. *)

From Stdlib Require Import ZArith List String Ascii Bool Lia.
Import ListNotations.

Open Scope string_scope.
Open Scope list_scope.
Open Scope Z_scope.

(** ** Go's [strings] package, as far as the programs call it *)

Module GoStrings.

(** The line feed, Go's ["\n"]. *)
Definition LF : ascii := ascii_of_nat 10.

Definition slash : ascii := "/"%char.

(** [len(s)]: the number of bytes. *)
Definition len (s : string) : Z := Z.of_nat (String.length s).

Definition bytes (l : list nat) : string :=
  fold_right (fun n s => String (ascii_of_nat n) s) EmptyString l.

(** [strings.HasPrefix]. *)
Fixpoint HasPrefix (s prefix : string) : bool :=
  match prefix, s with
  | EmptyString, _ => true
  | String _ _, EmptyString => false
  | String p ps, String c cs => Ascii.eqb c p && HasPrefix cs ps
  end.

(** [strings.HasSuffix]:
    [len(s) >= len(suffix) && s[len(s)-len(suffix):] == suffix]. *)
Definition HasSuffix (s suffix : string) : bool :=
  (String.length suffix <=? String.length s)%nat
  && String.eqb
       (substring (String.length s - String.length suffix)
                  (String.length suffix) s)
       suffix.

(** [strings.Contains]: [substr] starts at some byte offset of [s]. *)
Fixpoint Contains (s substr : string) : bool :=
  HasPrefix s substr
  || match s with
     | EmptyString => false
     | String _ t => Contains t substr
     end.

(** The bytes ['A'..'Z'] lowered, every other byte left alone. *)
Definition isUpper (c : ascii) : bool :=
  ((65 <=? nat_of_ascii c) && (nat_of_ascii c <=? 90))%nat.

Definition toLowerByte (c : ascii) : ascii :=
  if isUpper c then ascii_of_nat (nat_of_ascii c + 32) else c.

Fixpoint lowerASCII (s : string) : string :=
  match s with
  | EmptyString => EmptyString
  | String c t => String (toLowerByte c) (lowerASCII t)
  end.

(** A string of ASCII bytes, each below [utf8.RuneSelf]. *)
Fixpoint isASCII (s : string) : bool :=
  match s with
  | EmptyString => true
  | String c t => (nat_of_ascii c <? 128)%nat && isASCII t
  end.

(** [strings.ToLower] is a function of Go's library and is not fixed
    here: outside ASCII it maps each upper-case rune by the Unicode
    tables (U+0130 to [i], U+212A to [k]) and may change the length of
    the string.  All that is taken of it is its fast path: on a string of
    ASCII bytes it lowers the bytes ['A'..'Z'] and nothing else. *)
Class Lowering : Type := mkLowering {
  ToLower : string -> string;
  ToLower_ASCII : forall s, isASCII s = true -> ToLower s = lowerASCII s
}.

(** [unicode.IsSpace], as the UTF-8 encodings of the white-space runes:
    U+0009..U+000D, U+0020, U+0085, U+00A0, U+1680, U+2000..U+200A,
    U+2028, U+2029, U+202F, U+205F, U+3000. *)
Definition spaceRunes : list string :=
  map bytes
    [ [9]; [10]; [11]; [12]; [13]; [32];
      [194; 133]; [194; 160]; [225; 154; 128];
      [226; 128; 128]; [226; 128; 129]; [226; 128; 130];
      [226; 128; 131]; [226; 128; 132]; [226; 128; 133];
      [226; 128; 134]; [226; 128; 135]; [226; 128; 136];
      [226; 128; 137]; [226; 128; 138];
      [226; 128; 168]; [226; 128; 169]; [226; 128; 175];
      [226; 129; 159]; [227; 128; 128] ]%nat.

(** Width in bytes of the white-space rune [s] starts with, if any. *)
Definition leadingSpace (s : string) : option nat :=
  option_map String.length (find (HasPrefix s) spaceRunes).

(** Width in bytes of the white-space rune [s] ends with, if any. *)
Definition trailingSpace (s : string) : option nat :=
  option_map String.length (find (HasSuffix s) spaceRunes).

Fixpoint trimLeft (fuel : nat) (s : string) : string :=
  match fuel with
  | O => s
  | S fuel' =>
      match leadingSpace s with
      | Some w => trimLeft fuel' (substring w (String.length s - w) s)
      | None => s
      end
  end.

Fixpoint trimRight (fuel : nat) (s : string) : string :=
  match fuel with
  | O => s
  | S fuel' =>
      match trailingSpace s with
      | Some w => trimRight fuel' (substring 0 (String.length s - w) s)
      | None => s
      end
  end.

(** [strings.TrimSpace]: every rune removed is at least one byte wide, so
    the length of the string is fuel enough for both loops. *)
Definition TrimSpace (s : string) : string :=
  let l := trimLeft (String.length s) s in
  trimRight (String.length l) l.

(** Puts byte [c] in front of the first piece of a split. *)
Definition consHead (c : ascii) (pieces : list string) : list string :=
  match pieces with
  | [] => [String c EmptyString]
  | h :: r => String c h :: r
  end.

(** [strings.Split(s, sep)] for a separator of one byte, which is how the
    programs call it: the pieces between the occurrences of [sep], so an
    empty [s] gives one empty piece. *)
Fixpoint Split (s : string) (sep : ascii) : list string :=
  match s with
  | EmptyString => [EmptyString]
  | String c t =>
      if Ascii.eqb c sep then EmptyString :: Split t sep
      else consHead c (Split t sep)
  end.

(** The loop of [strings.SplitN] for a count [n > 0]: at most [n]
    pieces, the last one being the rest of the string, unsplit. *)
Fixpoint splitUpTo (s : string) (sep : ascii) (n : nat) : list string :=
  match n with
  | O => []
  | S O => [s]
  | S (S _ as n') =>
      match s with
      | EmptyString => [EmptyString]
      | String c t =>
          if Ascii.eqb c sep then EmptyString :: splitUpTo t sep n'
          else consHead c (splitUpTo t sep n)
      end
  end.

(** [strings.SplitN(s, sep, n)] for a separator of one byte: [n < 0]
    splits everywhere, [n = 0] gives nil. *)
Definition SplitN (s : string) (sep : ascii) (n : Z) : list string :=
  if n <? 0 then Split s sep else splitUpTo s sep (Z.to_nat n).

End GoStrings.

(** ** The parts of bubbletea and [os/exec] the programs touch *)

Module Tea.

(** A [tea.Msg]: a key press, carried as its name [msg.String()]
    (["q"], ["enter"], ["ctrl+c"], ["up"], ...), or any other message
    (window size and the like). *)
Inductive Msg : Type :=
| KeyMsg (key : string)
| OtherMsg.

(** A [tea.Cmd] as [Update] returns it: [nil] or [tea.Quit]. *)
Inductive Cmd : Type :=
| CmdNil
| Quit.

Definition error : Type := string.

(** The operating system as the programs see it: [cmd.Output()] gives
    the standard output of a command line and an error, [cmd.Run()]
    gives an error. *)
Record System : Type := mkSystem {
  Output : list string -> string * option error;
  Run : list string -> option error
}.

(** What a finished [main] leaves behind: the exit code, the text
    printed and the command lines handed to [cmd.Run()], or a run-time
    panic of an index expression. *)
Inductive Result : Type :=
| Exit (code : Z) (stdout : string) (ran : list (list string))
| Panic.

(** What [flag.Parse()] does with the command line: it returns with the
    value of the [-r]/[--remote] flag, or it ends the process itself, with
    status 2 for a flag it rejects and 0 for [-h]; its messages go to the
    standard error. *)
Inductive FlagParse : Type :=
| Parsed (remote : bool)
| FlagExit (status : Z).

(** A slice index expression [s[i]]; [None] is the run-time panic. *)
Definition sliceAt (s : list string) (i : Z) : option string :=
  if i <? 0 then None else nth_error s (Z.to_nat i).

Definition sliceLen (s : list string) : Z := Z.of_nat (List.length s).

(** The two lipgloss styles of [View], each by its [Render]: what the
    terminal's colour profile makes of a string is left open. *)
Record Styles : Type := mkStyles {
  selectedStyle : string -> string;
  cursorStyle : string -> string
}.

End Tea.

Import GoStrings Tea.

Definition nl : string := String LF EmptyString.

(** ** [src/unnamed/part_000]: remote flag and filter *)

Module Filter.

Record model : Type := mkModel {
  branches : list string;
  allBranches : list string;
  cursor : Z;
  offset : Z;
  remote : bool;
  selected : bool;
  err : option error;
  filterMode : bool;
  filterText : string;
  filteredApplied : bool
}.

(** Field assignments, [m.f = v]. *)
Definition set_branches (v : list string) (m : model) : model :=
  mkModel v (allBranches m) (cursor m) (offset m) (remote m) (selected m)
          (err m) (filterMode m) (filterText m) (filteredApplied m).
Definition set_cursor (v : Z) (m : model) : model :=
  mkModel (branches m) (allBranches m) v (offset m) (remote m) (selected m)
          (err m) (filterMode m) (filterText m) (filteredApplied m).
Definition set_offset (v : Z) (m : model) : model :=
  mkModel (branches m) (allBranches m) (cursor m) v (remote m) (selected m)
          (err m) (filterMode m) (filterText m) (filteredApplied m).
Definition set_selected (v : bool) (m : model) : model :=
  mkModel (branches m) (allBranches m) (cursor m) (offset m) (remote m) v
          (err m) (filterMode m) (filterText m) (filteredApplied m).
Definition set_filterMode (v : bool) (m : model) : model :=
  mkModel (branches m) (allBranches m) (cursor m) (offset m) (remote m)
          (selected m) (err m) v (filterText m) (filteredApplied m).
Definition set_filterText (v : string) (m : model) : model :=
  mkModel (branches m) (allBranches m) (cursor m) (offset m) (remote m)
          (selected m) (err m) (filterMode m) v (filteredApplied m).
Definition set_filteredApplied (v : bool) (m : model) : model :=
  mkModel (branches m) (allBranches m) (cursor m) (offset m) (remote m)
          (selected m) (err m) (filterMode m) (filterText m) v.

(** The command line [getRecentBranches] runs. *)
Definition forEachRef (remote : bool) : list string :=
  if remote
  then ["git"; "for-each-ref"; "--sort=-committerdate"; "refs/remotes/";
        "--format=%(refname:short)"]
  else ["git"; "for-each-ref"; "--sort=-committerdate"; "refs/heads/";
        "--format=%(refname:short)"].

(** The loop of [getRecentBranches] over the lines of the output:
    [filtered = append(filtered, b)] for each line that is kept. *)
Definition keepBranch (b : string) : bool :=
  negb (String.eqb b "") && negb (HasSuffix b "/HEAD").

Definition parseBranches (output : string) : list string :=
  let branches := Split (TrimSpace output) LF in
  fold_left (fun filtered b => if keepBranch b then filtered ++ [b]
                               else filtered)
            branches [].

Definition getRecentBranches (sys : System) (remote : bool)
  : list string * option error :=
  let (output, err) := Output sys (forEachRef remote) in
  match err with
  | Some e => ([], Some e)
  | None => (parseBranches output, None)
  end.

Definition initialModel (sys : System) (remote : bool) : model :=
  let (branches, err) := getRecentBranches sys remote in
  mkModel branches branches 0 0 remote false err false "" false.

(** [applyFilter], with the pointer receiver as state passing. *)
Definition applyFilter `{Lowering} (m : model) : model :=
  if String.eqb (filterText m) "" then
    set_offset 0 (set_cursor 0 (set_branches (allBranches m) m))
  else
    let filterLower := ToLower (filterText m) in
    let filtered :=
      fold_left (fun filtered branch =>
                   if Contains (ToLower branch) filterLower
                   then filtered ++ [branch] else filtered)
                (allBranches m) [] in
    set_offset 0 (set_cursor 0 (set_branches filtered m)).

(** The filter-mode switch of [Update]; it always ends in
    [return m, nil]. *)
Definition updateFilterMode `{Lowering} (m : model) (key : string) : model :=
  if String.eqb key "esc" then
    set_filteredApplied false
      (set_offset 0 (set_cursor 0
        (set_branches (allBranches m)
          (set_filterText "" (set_filterMode false m)))))
  else if String.eqb key "enter" then
    set_filteredApplied true (set_filterMode false m)
  else if String.eqb key "backspace" then
    if 0 <? len (filterText m) then
      applyFilter
        (set_filterText
           (substring 0 (String.length (filterText m) - 1) (filterText m))
           m)
    else m
  else
    if len key =? 1 then
      applyFilter (set_filterText (filterText m ++ key)%string m)
    else m.

(** The normal-mode switch of [Update]. *)
Definition updateNormalMode (m : model) (key : string) : model * Cmd :=
  if String.eqb key "ctrl+c" || String.eqb key "q" then (m, Quit)
  else if String.eqb key "esc" then
    if filteredApplied m then
      (set_filteredApplied false
         (set_offset 0 (set_cursor 0
           (set_filterText "" (set_branches (allBranches m) m)))),
       CmdNil)
    else (m, Quit)
  else if String.eqb key "/" then
    (set_filterText "" (set_filterMode true m), CmdNil)
  else if String.eqb key "up" || String.eqb key "k" then
    if 0 <? cursor m then
      let m := set_cursor (cursor m - 1) m in
      if cursor m <? offset m then (set_offset (offset m - 1) m, CmdNil)
      else (m, CmdNil)
    else (m, CmdNil)
  else if String.eqb key "down" || String.eqb key "j" then
    if cursor m <? sliceLen (branches m) - 1 then
      let m := set_cursor (cursor m + 1) m in
      if offset m + 10 <=? cursor m then (set_offset (offset m + 1) m, CmdNil)
      else (m, CmdNil)
    else (m, CmdNil)
  else if String.eqb key "enter" then
    (set_selected true m, Quit)
  else (m, CmdNil).

Definition Update `{Lowering} (m : model) (msg : Msg) : model * Cmd :=
  match msg with
  | KeyMsg key =>
      if filterMode m then (updateFilterMode m key, CmdNil)
      else updateNormalMode m key
  | OtherMsg => (m, CmdNil)
  end.

(** [checkoutBranch]: the command line built, and what running it
    returns. *)
Definition checkoutCommand (branch : string) (remote : bool) : list string :=
  if remote then
    let parts := SplitN branch slash 2 in
    match parts with
    | [_; localBranch] => ["git"; "checkout"; localBranch]
    | _ => ["git"; "checkout"; "--track"; branch]
    end
  else ["git"; "checkout"; branch].

Definition checkoutBranch (sys : System) (branch : string) (remote : bool)
  : list string * option error :=
  let cmd := checkoutCommand branch remote in
  (cmd, Run sys cmd).

(** The event loop of [p.Run()]: it feeds the messages to [Update] until
    one answers [tea.Quit], which is taken to end the loop before another
    message is handled; the pair says whether that happened, [false]
    meaning the messages ran out first. *)
Fixpoint eventLoop `{Lowering} (m : model) (msgs : list Msg) : model * bool :=
  match msgs with
  | [] => (m, false)
  | msg :: rest =>
      match Update m msg with
      | (m', Quit) => (m', true)
      | (m', CmdNil) => eventLoop m' rest
      end
  end.

(** [main] from [finalModel := m.(model)] on. *)
Definition finish (sys : System) (finalModel : model) : Result :=
  match err finalModel with
  | Some e => Exit 1 ("Error: " ++ e ++ nl)%string []
  | None =>
      if selected finalModel && (0 <? sliceLen (branches finalModel)) then
        match sliceAt (branches finalModel) (cursor finalModel) with
        | None => Panic
        | Some selectedBranch =>
            let out := ("Checking out: " ++ selectedBranch ++ nl)%string in
            let (cmd, err) :=
              checkoutBranch sys selectedBranch (remote finalModel) in
            match err with
            | Some e =>
                Exit 1 (out ++ "Failed to checkout branch: " ++ e ++ nl)%string
                     [cmd]
            | None => Exit 0 out [cmd]
            end
        end
      else Exit 0 "" []
  end.

(** [main].  [flags] is what [flag.Parse()] did, [msgs] the messages the
    terminal delivers and [failure] the error, if any, that ends
    [p.Run()] once these messages are used up (a terminal that cannot be
    opened fails with no message handled).  [None]: the program still
    waits for input. *)
Definition main `{Lowering} (sys : System) (flags : FlagParse)
    (msgs : list Msg) (failure : option error) : option Result :=
  match flags with
  | FlagExit status => Some (Exit status "" [])
  | Parsed remote =>
      match eventLoop (initialModel sys remote) msgs with
      | (finalModel, true) => Some (finish sys finalModel)
      | (_, false) =>
          match failure with
          | Some e => Some (Exit 1 ("Error: " ++ e ++ nl)%string [])
          | None => None
          end
      end
  end.

(** The cursor mark, byte for byte as the string literal stands in the
    file. *)
Definition cursorMark : string := bytes [195; 162; 226; 130; 172; 194; 186]%nat.

(** The loop of [View], [for i := m.offset; i < end; i++], run for the
    [n] indices from [i] on, appending to [s]; [None] is the panic of
    [m.branches[i]]. *)
Fixpoint viewRows (st : Styles) (m : model) (i : Z) (n : nat) (s : string)
  : option string :=
  match n with
  | O => Some s
  | S n' =>
      match sliceAt (branches m) i with
      | None => None
      | Some branch =>
          let cursorText :=
            if cursor m =? i then cursorStyle st cursorMark else " " in
          let branch :=
            if cursor m =? i then selectedStyle st branch else branch in
          viewRows st m (i + 1) n'
            (s ++ (cursorText ++ " " ++ branch ++ nl))%string
      end
  end.

(** The last lines of [View], by mode. *)
Definition viewFooter (m : model) : string :=
  if filterMode m then
    ("Filter: /" ++ filterText m ++ "_" ++ nl
     ++ "(type to filter, enter to keep, esc to cancel)" ++ nl)%string
  else if filteredApplied m then
    ("[Filtered: " ++ filterText m ++ "] "
     ++ "(/ to filter, esc to clear, j/k to move, enter to select, q to quit)"
     ++ nl)%string
  else ("(/ to filter, j/k to move, enter to select, q to quit)" ++ nl)%string.

Definition View (st : Styles) (m : model) : option string :=
  match err m with
  | Some e => Some ("Error: " ++ e ++ nl)%string
  | None =>
      if sliceLen (branches m) =? 0 then
        if filterMode m then
          Some ("No branches match filter." ++ nl ++ nl
                ++ "Filter: /" ++ filterText m ++ "_" ++ nl ++ nl
                ++ "(type to filter, enter to keep, esc to cancel)" ++ nl)%string
        else Some ("No branches found." ++ nl)%string
      else
        let s := ("Select a branch to checkout:" ++ nl ++ nl)%string in
        let last :=
          if sliceLen (branches m) <? offset m + 10
          then sliceLen (branches m) else offset m + 10 in
        match viewRows st m (offset m) (Z.to_nat (last - offset m)) s with
        | None => None
        | Some s => Some (s ++ nl ++ viewFooter m)%string
        end
  end.

End Filter.

(** ** [src/main.go]: remote flag, no filter *)

Module Remote.

Record model : Type := mkModel {
  branches : list string;
  cursor : Z;
  offset : Z;
  remote : bool;
  err : option error
}.

Definition set_cursor (v : Z) (m : model) : model :=
  mkModel (branches m) v (offset m) (remote m) (err m).
Definition set_offset (v : Z) (m : model) : model :=
  mkModel (branches m) (cursor m) v (remote m) (err m).

Definition forEachRef (remote : bool) : list string :=
  if remote
  then ["git"; "for-each-ref"; "--sort=-committerdate"; "refs/remotes/";
        "--format=%(refname:short)"]
  else ["git"; "for-each-ref"; "--sort=-committerdate"; "refs/heads/";
        "--format=%(refname:short)"].

Definition keepBranch (b : string) : bool :=
  negb (String.eqb b "") && negb (HasSuffix b "/HEAD").

Definition parseBranches (output : string) : list string :=
  let branches := Split (TrimSpace output) LF in
  fold_left (fun filtered b => if keepBranch b then filtered ++ [b]
                               else filtered)
            branches [].

Definition getRecentBranches (sys : System) (remote : bool)
  : list string * option error :=
  let (output, err) := Output sys (forEachRef remote) in
  match err with
  | Some e => ([], Some e)
  | None => (parseBranches output, None)
  end.

Definition initialModel (sys : System) (remote : bool) : model :=
  let (branches, err) := getRecentBranches sys remote in
  mkModel branches 0 0 remote err.

Definition Update (m : model) (msg : Msg) : model * Cmd :=
  match msg with
  | KeyMsg key =>
      if String.eqb key "ctrl+c" || String.eqb key "q" then (m, Quit)
      else if String.eqb key "up" || String.eqb key "k" then
        if 0 <? cursor m then
          let m := set_cursor (cursor m - 1) m in
          if cursor m <? offset m then (set_offset (offset m - 1) m, CmdNil)
          else (m, CmdNil)
        else (m, CmdNil)
      else if String.eqb key "down" || String.eqb key "j" then
        if cursor m <? sliceLen (branches m) - 1 then
          let m := set_cursor (cursor m + 1) m in
          if offset m + 10 <=? cursor m
          then (set_offset (offset m + 1) m, CmdNil)
          else (m, CmdNil)
        else (m, CmdNil)
      else if String.eqb key "enter" then (m, Quit)
      else (m, CmdNil)
  | OtherMsg => (m, CmdNil)
  end.

Definition checkoutCommand (branch : string) (remote : bool) : list string :=
  if remote then
    let parts := SplitN branch slash 2 in
    match parts with
    | [_; localBranch] => ["git"; "checkout"; localBranch]
    | _ => ["git"; "checkout"; "--track"; branch]
    end
  else ["git"; "checkout"; branch].

Definition checkoutBranch (sys : System) (branch : string) (remote : bool)
  : list string * option error :=
  let cmd := checkoutCommand branch remote in
  (cmd, Run sys cmd).

Fixpoint eventLoop (m : model) (msgs : list Msg) : model * bool :=
  match msgs with
  | [] => (m, false)
  | msg :: rest =>
      match Update m msg with
      | (m', Quit) => (m', true)
      | (m', CmdNil) => eventLoop m' rest
      end
  end.

(** [main] from [finalModel := m.(model)] on: there is no [selected]
    field here, the branch under the cursor is checked out whenever the
    list is not empty, whichever key ended the loop.  The README that
    follows the program in the same file lists [q], [Esc] and [Ctrl+C]
    as "Quit without checking out". *)
Definition finish (sys : System) (finalModel : model) : Result :=
  match err finalModel with
  | Some e => Exit 1 ("Error: " ++ e ++ nl)%string []
  | None =>
      if 0 <? sliceLen (branches finalModel) then
        match sliceAt (branches finalModel) (cursor finalModel) with
        | None => Panic
        | Some selectedBranch =>
            let out := ("Checking out: " ++ selectedBranch ++ nl)%string in
            let (cmd, err) :=
              checkoutBranch sys selectedBranch (remote finalModel) in
            match err with
            | Some e =>
                Exit 1 (out ++ "Failed to checkout branch: " ++ e ++ nl)%string
                     [cmd]
            | None => Exit 0 out [cmd]
            end
        end
      else Exit 0 "" []
  end.

(** [main], with [flags], [msgs] and [failure] as for [part_000]. *)
Definition main (sys : System) (flags : FlagParse) (msgs : list Msg)
    (failure : option error) : option Result :=
  match flags with
  | FlagExit status => Some (Exit status "" [])
  | Parsed remote =>
      match eventLoop (initialModel sys remote) msgs with
      | (finalModel, true) => Some (finish sys finalModel)
      | (_, false) =>
          match failure with
          | Some e => Some (Exit 1 ("Error: " ++ e ++ nl)%string [])
          | None => None
          end
      end
  end.

End Remote.

(** ** [src/unnamed/part_001]: local branches only *)

Module Local.

Definition forEachRef : list string :=
  ["git"; "for-each-ref"; "--sort=-committerdate"; "refs/heads/";
   "--format=%(refname:short)"].

(** The loop keeps every line that is not empty. *)
Definition keepBranch (b : string) : bool := negb (String.eqb b "").

Definition parseBranches (output : string) : list string :=
  let branches := Split (TrimSpace output) LF in
  fold_left (fun filtered b => if keepBranch b then filtered ++ [b]
                               else filtered)
            branches [].

Definition getRecentBranches (sys : System) : list string * option error :=
  let (output, err) := Output sys forEachRef in
  match err with
  | Some e => ([], Some e)
  | None => (parseBranches output, None)
  end.

Record model : Type := mkModel {
  branches : list string;
  cursor : Z;
  offset : Z;
  err : option error
}.

Definition set_cursor (v : Z) (m : model) : model :=
  mkModel (branches m) v (offset m) (err m).
Definition set_offset (v : Z) (m : model) : model :=
  mkModel (branches m) (cursor m) v (err m).

Definition initialModel (sys : System) : model :=
  let (branches, err) := getRecentBranches sys in
  mkModel branches 0 0 err.

Definition Update (m : model) (msg : Msg) : model * Cmd :=
  match msg with
  | KeyMsg key =>
      if String.eqb key "ctrl+c" || String.eqb key "q" then (m, Quit)
      else if String.eqb key "up" || String.eqb key "k" then
        if 0 <? cursor m then
          let m := set_cursor (cursor m - 1) m in
          if cursor m <? offset m then (set_offset (offset m - 1) m, CmdNil)
          else (m, CmdNil)
        else (m, CmdNil)
      else if String.eqb key "down" || String.eqb key "j" then
        if cursor m <? sliceLen (branches m) - 1 then
          let m := set_cursor (cursor m + 1) m in
          if offset m + 10 <=? cursor m
          then (set_offset (offset m + 1) m, CmdNil)
          else (m, CmdNil)
        else (m, CmdNil)
      else if String.eqb key "enter" then (m, Quit)
      else (m, CmdNil)
  | OtherMsg => (m, CmdNil)
  end.

Definition checkoutCommand (branch : string) : list string :=
  ["git"; "checkout"; branch].

Definition checkoutBranch (sys : System) (branch : string)
  : list string * option error :=
  let cmd := checkoutCommand branch in
  (cmd, Run sys cmd).

Fixpoint eventLoop (m : model) (msgs : list Msg) : model * bool :=
  match msgs with
  | [] => (m, false)
  | msg :: rest =>
      match Update m msg with
      | (m', Quit) => (m', true)
      | (m', CmdNil) => eventLoop m' rest
      end
  end.

Definition finish (sys : System) (finalModel : model) : Result :=
  match err finalModel with
  | Some e => Exit 1 ("Error: " ++ e ++ nl)%string []
  | None =>
      if 0 <? sliceLen (branches finalModel) then
        match sliceAt (branches finalModel) (cursor finalModel) with
        | None => Panic
        | Some selectedBranch =>
            let out := ("Checking out: " ++ selectedBranch ++ nl)%string in
            let (cmd, err) := checkoutBranch sys selectedBranch in
            match err with
            | Some e =>
                Exit 1 (out ++ "Failed to checkout branch: " ++ e ++ nl)%string
                     [cmd]
            | None => Exit 0 out [cmd]
            end
        end
      else Exit 0 "" []
  end.

(** [main]: this program parses no flags; [msgs] and [failure] as for
    [part_000]. *)
Definition main (sys : System) (msgs : list Msg) (failure : option error)
  : option Result :=
  match eventLoop (initialModel sys) msgs with
  | (finalModel, true) => Some (finish sys finalModel)
  | (_, false) =>
      match failure with
      | Some e => Some (Exit 1 ("Error: " ++ e ++ nl)%string [])
      | None => None
      end
  end.

End Local.

(** ** The vocabulary of the specification *)

Module Spec.

(** Two strings equal up to the case of their ASCII letters. *)
Fixpoint EqualFold (s t : string) : bool :=
  match s, t with
  | EmptyString, EmptyString => true
  | String a s', String b t' =>
      Ascii.eqb (toLowerByte a) (toLowerByte b) && EqualFold s' t'
  | _, _ => false
  end.

(** On ASCII text: [sub] occurs in [s] up to case, some run of
    [length sub] bytes of [s] equals [sub] up to the case of letters. *)
Definition containsFold (s sub : string) : bool :=
  existsb (fun i => EqualFold (substring i (String.length sub) s) sub)
          (seq 0 (S (String.length s))).

(** [sub] occurs in [s]: some run of [length sub] bytes of [s] is [sub]. *)
Definition occurs (s sub : string) : bool :=
  existsb (fun i => String.eqb (substring i (String.length sub) s) sub)
          (seq 0 (S (String.length s))).

(** [sub] is a case-insensitive substring of [s]: with both lowered by
    Go's [strings.ToLower], [sub] occurs in [s]. *)
Definition containsLower `{Lowering} (s sub : string) : bool :=
  occurs (ToLower s) (ToLower sub).

(** The window invariant of the data model, page size 10. *)
Definition window (cursor offset : Z) : Prop :=
  offset <= cursor < offset + 10 /\ 0 <= offset.

(** The cursor is an index into the visible list. *)
Definition inBounds (visible : list string) (cursor : Z) : Prop :=
  0 <= cursor < sliceLen visible.

(** A line of the enumeration output that names a symbolic pointer. *)
Definition isPointer (b : string) : bool := HasSuffix b "/HEAD".

(** The branch list the specification asks of a parser: the non-empty
    lines of the trimmed output, in order, pointers left out. *)
Definition branchLines (output : string) : list string :=
  filter (fun b => negb (isPointer b))
         (filter (fun b => negb (String.eqb b ""))
                 (Split (TrimSpace output) LF)).

(** The same without the exclusion of pointers. *)
Definition nonEmptyLines (output : string) : list string :=
  filter (fun b => negb (String.eqb b "")) (Split (TrimSpace output) LF).

(** The move-down row of the transition table. *)
Definition movesDown (visible : list string) (c o c' o' : Z) : Prop :=
  c' = Z.min (sliceLen visible - 1) (c + 1)
  /\ o' = (if o + 10 <=? c' then o + 1 else o).

(** The move-up row of the transition table. *)
Definition movesUp (c o c' o' : Z) : Prop :=
  c' = Z.max 0 (c - 1)
  /\ o' = (if c' <? o then c' else o).

(** The key bindings of the two moves. *)
Definition isMoveDown (key : string) : Prop := key = "down" \/ key = "j".
Definition isMoveUp (key : string) : Prop := key = "up" \/ key = "k".

(** What a move key does to the visible list [visible], the cursor [c]
    and the offset [o], giving [visible'], [c'], [o'] and the command
    [cmd]: the row of the table, no termination, and a cursor that is
    still an index into the list, inside the window. *)
Definition navigates (key : string) (visible : list string) (c o : Z)
    (visible' : list string) (c' o' : Z) (cmd : Cmd) : Prop :=
  (isMoveDown key -> movesDown visible c o c' o')
  /\ (isMoveUp key -> movesUp c o c' o')
  /\ (isMoveDown key \/ isMoveUp key ->
      visible' = visible /\ cmd = CmdNil
      /\ inBounds visible' c' /\ window c' o').

(** A string without the byte [/]. *)
Definition noSlash (s : string) : Prop :=
  Contains s (String slash "") = false.

(** The confirm row of the transition table, read on [Filter.Update]:
    in Browsing the confirm key ends the selection exactly when the
    visible list is not empty. *)
Definition confirmTerminatesIffNonEmpty `{Lowering} (m : Filter.model)
  : Prop :=
  snd (Filter.Update m (KeyMsg "enter")) = Quit <-> Filter.branches m <> [].

(** A browsing key press that cancels: the quit keys, or the cancel key
    while no filter is committed. *)
Definition cancels (m : Filter.model) (key : string) : Prop :=
  Filter.filterMode m = false
  /\ (key = "q" \/ key = "ctrl+c"
      \/ (key = "esc" /\ Filter.filteredApplied m = false)).

(** The state invariant of the selectors, on the visible list, the cursor
    and the offset: the window holds the cursor, and the cursor is an index
    into the visible list, or 0 when that list is empty. *)
Definition invariant (visible : list string) (c o : Z) : Prop :=
  window c o /\ 0 <= c /\ (c = 0 \/ c < sliceLen visible).

Definition wellFormed (m : Filter.model) : Prop :=
  invariant (Filter.branches m) (Filter.cursor m) (Filter.offset m).

End Spec.

Import Spec.

(** ** Sample systems for the examples *)

Module Sample.

(** Text of the given lines, each ended by a line feed. *)
Definition unlines (l : list string) : string :=
  fold_right (fun s acc => (s ++ nl ++ acc)%string) "" l.

(** A repository in which [git for-each-ref] prints the given branches
    and every [git checkout] succeeds. *)
Definition repo (bs : list string) : System :=
  mkSystem (fun _ => (unlines bs, None)) (fun _ => None).

(** [git for-each-ref] fails: not a repository. *)
Definition noRepo : System :=
  mkSystem (fun _ => ("", Some "exit status 128")) (fun _ => None).

Definition four : list string :=
  ["main"; "develop"; "feature/login"; "feature/signup"].

Definition twelve : list string :=
  ["b00"; "b01"; "b02"; "b03"; "b04"; "b05";
   "b06"; "b07"; "b08"; "b09"; "b10"; "b11"].

Definition keys (l : list string) : list Msg := map KeyMsg l.

(** A lowering to run the examples with: the bytes ['A'..'Z'] lowered in
    any string. *)
Definition bytesLowering : Lowering :=
  mkLowering lowerASCII (fun s _ => eq_refl).

(** A lowering that knows one rune outside ASCII: in a string that is not
    ASCII the Kelvin sign U+212A, bytes [E2 84 AA], becomes [k], as in
    Go. *)
Fixpoint lowerKelvin (s : string) : string :=
  match s with
  | EmptyString => EmptyString
  | String a r =>
      match r with
      | String b (String c t) =>
          if ((nat_of_ascii a =? 226) && (nat_of_ascii b =? 132)
              && (nat_of_ascii c =? 170))%nat
          then String "k" (lowerKelvin t)
          else String (toLowerByte a) (lowerKelvin r)
      | _ => String (toLowerByte a) (lowerKelvin r)
      end
  end.

Definition kelvinLowering : Lowering :=
  mkLowering
    (fun s => if isASCII s then lowerASCII s else lowerKelvin s)
    (fun s H =>
       f_equal (fun b : bool => if b then lowerASCII s else lowerKelvin s) H).

End Sample.

Import Sample.

(** ** The page [View] draws, in closed form *)

Module Rendering.

(** The entries on the page: up to 10 of the visible list, from the
    offset on. *)
Definition page (m : Filter.model) : list string :=
  firstn 10 (skipn (Z.to_nat (Filter.offset m)) (Filter.branches m)).

(** One line of the page, marked or not. *)
Definition row (st : Styles) (marked : bool) (branch : string) : string :=
  if marked
  then (cursorStyle st Filter.cursorMark ++ " " ++ selectedStyle st branch
        ++ nl)%string
  else (" " ++ " " ++ branch ++ nl)%string.

(** The lines of some entries, the one [k] places ahead marked. *)
Fixpoint rows (st : Styles) (entries : list string) (k : Z) : string :=
  match entries with
  | [] => ""
  | b :: rest => append (row st (Z.eqb k 0) b) (rows st rest (k - 1))
  end.

(** The lines of some entries, none marked. *)
Definition plainRows (st : Styles) (entries : list string) : string :=
  fold_right (fun b acc => append (row st false b) acc) "" entries.

(** The key [key] pressed [n] times. *)
Definition presses (key : string) (n : nat) : list Msg :=
  repeat (KeyMsg key) n.

(** A byte of a plain branch name: printable ASCII other than the space. *)
Definition plainByte (c : ascii) : bool :=
  ((32 <? nat_of_ascii c) && (nat_of_ascii c <? 127))%nat.

Fixpoint allBytes (p : ascii -> bool) (s : string) : bool :=
  match s with
  | EmptyString => true
  | String c t => p c && allBytes p t
  end.

(** A plain branch name: not empty, of plain bytes. *)
Definition plainName (b : string) : bool :=
  negb (String.eqb b "") && allBytes plainByte b.

(** The first and the last byte of a string. *)
Definition firstByte (s : string) : option ascii :=
  match s with
  | EmptyString => None
  | String c _ => Some c
  end.

Fixpoint lastByte (s : string) : option ascii :=
  match s with
  | EmptyString => None
  | String c EmptyString => Some c
  | String _ t => lastByte t
  end.

(** The byte, if there is one, is not a plain byte. *)
Definition notPlain (b : option ascii) : bool :=
  match b with
  | Some c => negb (plainByte c)
  | None => false
  end.

End Rendering.

Import Rendering.

(** * Lemmas on the string functions *)

Section Collect.

Context {A : Type} (keep : A -> bool).

(** The Go idiom [for _, x := range xs { if keep(x) { out = append(out, x) } }]
    is [filter]. *)
Lemma collect_from (xs acc : list A) :
  fold_left (fun out x => if keep x then out ++ [x] else out) xs acc
  = acc ++ filter keep xs.
Proof.
  revert acc; induction xs as [|x xs IH]; intros acc; simpl.
  - now rewrite app_nil_r.
  - rewrite IH. destruct (keep x); [|reflexivity].
    now rewrite <- app_assoc.
Qed.

Lemma collect_filter (xs : list A) :
  fold_left (fun out x => if keep x then out ++ [x] else out) xs []
  = filter keep xs.
Proof. apply collect_from. Qed.

End Collect.

Lemma filter_filter {A} (p q : A -> bool) (l : list A) :
  filter p (filter q l) = filter (fun x => q x && p x) l.
Proof.
  induction l as [|x l IH]; simpl; [reflexivity|].
  destruct (q x); simpl; [destruct (p x)|]; now rewrite IH.
Qed.

Lemma existsb_seq_shift (f : nat -> bool) (n k : nat) :
  existsb f (seq (S k) n) = existsb (fun i => f (S i)) (seq k n).
Proof.
  revert k; induction n as [|n IH]; intros k; simpl; [reflexivity|].
  now rewrite IH.
Qed.

Lemma HasPrefix_fold (s sub : string) :
  HasPrefix (lowerASCII s) (lowerASCII sub)
  = EqualFold (substring 0 (String.length sub) s) sub.
Proof.
  revert s; induction sub as [|p sub IH]; intros [|c s]; simpl; try reflexivity.
  now rewrite IH.
Qed.

(** On bytes lowered one by one, [Contains] is the test for an occurrence
    up to the case of ASCII letters. *)
Lemma Contains_fold (s sub : string) :
  Contains (lowerASCII s) (lowerASCII sub) = containsFold s sub.
Proof.
  unfold containsFold.
  induction s as [|c s IH].
  - cbn [String.length seq existsb].
    rewrite <- (HasPrefix_fold "" sub). reflexivity.
  - cbn [String.length]. change (lowerASCII (String c s))
      with (String (toLowerByte c) (lowerASCII s)). cbn [Contains].
    change (String (toLowerByte c) (lowerASCII s)) with (lowerASCII (String c s)).
    change (seq 0 (S (S (String.length s))))
      with (0%nat :: seq 1 (S (String.length s))).
    cbn [existsb]. rewrite existsb_seq_shift, IH.
    f_equal. apply (HasPrefix_fold (String c s) sub).
Qed.

Lemma containsFold_empty (s : string) : containsFold s "" = true.
Proof.
  unfold containsFold. cbn [String.length seq existsb].
  now destruct s.
Qed.

Lemma HasPrefix_substring (s sub : string) :
  HasPrefix s sub = String.eqb (substring 0 (String.length sub) s) sub.
Proof.
  revert s; induction sub as [|p sub IH]; intros [|c s]; cbn; try reflexivity.
  rewrite IH. now destruct (Ascii.eqb c p).
Qed.

(** [strings.Contains] finds an occurrence. *)
Lemma Contains_occurs (s sub : string) : Contains s sub = occurs s sub.
Proof.
  unfold occurs.
  induction s as [|c s IH].
  - cbn [String.length seq existsb Contains].
    now rewrite HasPrefix_substring.
  - cbn [String.length Contains].
    change (seq 0 (S (S (String.length s))))
      with (0%nat :: seq 1 (S (String.length s))).
    cbn [existsb]. rewrite existsb_seq_shift, IH.
    f_equal. apply HasPrefix_substring.
Qed.

Lemma occurs_empty (s : string) : occurs s "" = true.
Proof.
  unfold occurs. cbn [String.length seq existsb].
  now destruct s.
Qed.

Lemma substring_split (s : string) (i n : nat) :
  (i + n <= String.length s)%nat ->
  s = (substring 0 i s ++ substring i n s
       ++ substring (i + n) (String.length s - (i + n)) s)%string.
Proof.
  revert i n; induction s as [|c s IH]; intros i n H.
  - simpl in H. assert (i = 0%nat) by lia. assert (n = 0%nat) by lia.
    subst. reflexivity.
  - destruct i as [|i].
    + destruct n as [|n].
      * simpl. f_equal. clear. induction s as [|d s IH]; simpl; [reflexivity|].
        now rewrite <- IH.
      * simpl in H. cbn [substring append plus String.length Nat.sub].
        f_equal. specialize (IH 0%nat n ltac:(simpl; lia)).
        simpl in IH.
        destruct s; simpl in *; exact IH.
    + simpl in H. cbn [substring append plus String.length Nat.sub].
      f_equal. apply IH. lia.
Qed.

Lemma EqualFold_length (s t : string) :
  EqualFold s t = true -> String.length s = String.length t.
Proof.
  revert t; induction s as [|a s IH]; intros [|b t]; simpl; try discriminate.
  - reflexivity.
  - intros H. apply andb_true_iff in H as [_ H]. f_equal. now apply IH.
Qed.

Lemma substring_full_length (s : string) (i n : nat) :
  (i <= String.length s)%nat ->
  String.length (substring i n s) = n ->
  (i + n <= String.length s)%nat.
Proof.
  revert i n; induction s as [|c s IH]; intros i n Hi Hn.
  - simpl in Hi. destruct i; [|lia]. destruct n; simpl in *; lia.
  - destruct i as [|i].
    + destruct n as [|n]; simpl in *; [lia|].
      injection Hn as Hn. specialize (IH 0%nat n ltac:(lia) Hn). lia.
    + simpl in *. specialize (IH i n ltac:(lia) Hn). lia.
Qed.

Lemma substring_prefix_app (mid post : string) :
  substring 0 (String.length mid) (mid ++ post) = mid.
Proof.
  induction mid as [|c mid IH]; simpl.
  - now destruct post.
  - now rewrite IH.
Qed.

Lemma substring_middle (pre mid post : string) :
  substring (String.length pre) (String.length mid) (pre ++ mid ++ post) = mid.
Proof.
  induction pre as [|c pre IH]; simpl.
  - apply substring_prefix_app.
  - exact IH.
Qed.

Lemma length_append (s t : string) :
  String.length (s ++ t) = (String.length s + String.length t)%nat.
Proof. induction s as [|c s IH]; simpl; [reflexivity | now rewrite IH]. Qed.

(** [containsFold] read as the specification words it: [s] splits around a
    middle part that equals [sub] up to case. *)
Lemma containsFold_spec (s sub : string) :
  containsFold s sub = true
  <-> exists pre mid post : string,
        s = (pre ++ mid ++ post)%string /\ EqualFold mid sub = true.
Proof.
  unfold containsFold. rewrite existsb_exists. split.
  - intros (i & Hi & He). apply in_seq in Hi.
    pose proof (EqualFold_length _ _ He) as Hl.
    pose proof (substring_full_length s i _ ltac:(lia) Hl) as Hb.
    exists (substring 0 i s), (substring i (String.length sub) s),
      (substring (i + String.length sub)
                 (String.length s - (i + String.length sub)) s).
    split; [now apply substring_split | exact He].
  - intros (pre & mid & post & -> & He).
    exists (String.length pre). split.
    + apply in_seq. rewrite length_append. lia.
    + rewrite <- (EqualFold_length _ _ He), substring_middle. exact He.
Qed.

(** *** Splitting at the first slash *)

Lemma Contains_byte (c d : ascii) (s : string) :
  Contains (String c s) (String d "")
  = Ascii.eqb c d || Contains s (String d "").
Proof. destruct s; simpl; now rewrite andb_true_r. Qed.

Lemma splitUpTo_one (s : string) (sep : ascii) : splitUpTo s sep 1 = [s].
Proof. now destruct s. Qed.

Lemma splitUpTo_no_sep (s : string) (sep : ascii) :
  Contains s (String sep "") = false ->
  splitUpTo s sep 2 = [s].
Proof.
  induction s as [|c s IH]; intros H; [reflexivity|].
  rewrite Contains_byte in H. apply orb_false_iff in H as [Hc Hs].
  cbn [splitUpTo]. rewrite Hc.
  now rewrite (IH Hs).
Qed.

Lemma splitUpTo_first_sep (r l : string) (sep : ascii) :
  Contains r (String sep "") = false ->
  splitUpTo (r ++ String sep l) sep 2 = [r; l].
Proof.
  induction r as [|c r IH]; intros H.
  - cbn [append splitUpTo]. now rewrite Ascii.eqb_refl, splitUpTo_one.
  - rewrite Contains_byte in H. apply orb_false_iff in H as [Hc Hr].
    cbn [append splitUpTo]. rewrite Hc.
    now rewrite (IH Hr).
Qed.

Lemma Contains_first_sep (s : string) (sep : ascii) :
  Contains s (String sep "") = true ->
  exists r l, s = (r ++ String sep l)%string
              /\ Contains r (String sep "") = false.
Proof.
  induction s as [|c s IH]; intros H; [discriminate|].
  rewrite Contains_byte in H.
  destruct (Ascii.eqb c sep) eqn:Hc.
  - apply Ascii.eqb_eq in Hc as ->. now exists "", s.
  - destruct (IH H) as (r & l & -> & Hr).
    exists (String c r), l. split; [reflexivity|].
    rewrite Contains_byte, Hc. exact Hr.
Qed.

(** * The selector with the filter ([Filter]) as a state machine *)

(** Splits the goal on the condition of an [if], integer comparisons
    turned into inequalities. *)
Ltac split_if :=
  match goal with
  | |- context [if ?a <? ?b then _ else _] => destruct (Z.ltb_spec a b)
  | |- context [if ?a <=? ?b then _ else _] => destruct (Z.leb_spec a b)
  | |- context [if ?a =? ?b then _ else _] => destruct (Z.eqb_spec a b)
  | |- context [if ?c then _ else _] => destruct c eqn:?
  end.

Ltac split_ifs := repeat (split_if; cbn [fst snd]).

(** Evaluates the comparisons of key names that are both literals. *)
Ltac eval_keys :=
  repeat match goal with
         | |- context [String.eqb ?a ?b] =>
             let v := eval vm_compute in (String.eqb a b) in
             change (String.eqb a b) with v
         end;
  cbn [orb andb].

Module FilterFacts.

Import Filter.

(** Computes the field assignments of a model given by its fields. *)
Ltac assign :=
  cbn [fst snd set_filteredApplied set_filterText set_filterMode
       set_selected set_offset set_cursor set_branches
       branches allBranches cursor offset remote selected err
       filterMode filterText filteredApplied] in *.

(** One goal for each path through [Update]. *)
Ltac update_paths m :=
  destruct m;
  unfold Update, updateFilterMode, updateNormalMode, applyFilter;
  assign; split_ifs; assign.

Section Facts.

Context {L : Lowering}.

Lemma initialModel_wellFormed sys remote :
  wellFormed (initialModel sys remote).
Proof.
  unfold initialModel. destruct (getRecentBranches sys remote) as [bs e].
  unfold wellFormed, invariant, window; assign. lia.
Qed.

Lemma Update_wellFormed m msg :
  wellFormed m -> wellFormed (fst (Update m msg)).
Proof.
  unfold wellFormed, invariant, window.
  destruct msg as [key|]; [|exact (fun H => H)].
  update_paths m; lia.
Qed.

Lemma Update_allBranches m msg :
  allBranches (fst (Update m msg)) = allBranches m.
Proof.
  destruct msg as [key|]; [|reflexivity].
  update_paths m; reflexivity.
Qed.

Lemma Update_remote m msg : remote (fst (Update m msg)) = remote m.
Proof.
  destruct msg as [key|]; [|reflexivity].
  update_paths m; reflexivity.
Qed.

Lemma Update_err m msg : err (fst (Update m msg)) = err m.
Proof.
  destruct msg as [key|]; [|reflexivity].
  update_paths m; reflexivity.
Qed.

(** [selected] is set by the quitting [enter] of normal mode and by
    nothing else. *)
Lemma Update_selected_nil m msg :
  snd (Update m msg) = CmdNil ->
  selected (fst (Update m msg)) = selected m.
Proof.
  destruct msg as [key|]; [|reflexivity].
  update_paths m; congruence.
Qed.

(** An induction principle for the event loop: a property kept by every
    [Update] holds of the model the loop stops with. *)
Lemma eventLoop_preserves (P : model -> Prop) :
  (forall m msg, P m -> P (fst (Update m msg))) ->
  forall msgs m, P m -> P (fst (eventLoop m msgs)).
Proof.
  intros step msgs; induction msgs as [|msg msgs IH]; intros m H.
  - exact H.
  - cbn [eventLoop]. specialize (step m msg H).
    destruct (Update m msg) as [m' [|]]; cbn [fst] in *.
    + now apply IH.
    + exact step.
Qed.

Lemma eventLoop_wellFormed m msgs :
  wellFormed m -> wellFormed (fst (eventLoop m msgs)).
Proof. apply eventLoop_preserves. intros; now apply Update_wellFormed. Qed.

Lemma eventLoop_allBranches m msgs :
  allBranches (fst (eventLoop m msgs)) = allBranches m.
Proof.
  apply (eventLoop_preserves (fun m' => allBranches m' = allBranches m));
    [|reflexivity].
  intros m' msg H. now rewrite Update_allBranches.
Qed.

Lemma eventLoop_remote m msgs :
  remote (fst (eventLoop m msgs)) = remote m.
Proof.
  apply (eventLoop_preserves (fun m' => remote m' = remote m));
    [|reflexivity].
  intros m' msg H. now rewrite Update_remote.
Qed.

Lemma eventLoop_err m msgs : err (fst (eventLoop m msgs)) = err m.
Proof.
  apply (eventLoop_preserves (fun m' => err m' = err m)); [|reflexivity].
  intros m' msg H. now rewrite Update_err.
Qed.

(** While the loop runs, [selected] keeps its value. *)
Lemma eventLoop_selected_running msgs : forall m,
  snd (eventLoop m msgs) = false ->
  selected (fst (eventLoop m msgs)) = selected m.
Proof.
  induction msgs as [|msg msgs IH]; intros m H; [reflexivity|].
  cbn [eventLoop] in *.
  pose proof (Update_selected_nil m msg) as Hs.
  destruct (Update m msg) as [m' [|]]; cbn [fst snd] in *.
  - rewrite (IH m' H). now apply Hs.
  - discriminate.
Qed.

(** Feeding more messages to a loop that still runs. *)
Lemma eventLoop_app msgs more : forall m,
  snd (eventLoop m msgs) = false ->
  eventLoop m (msgs ++ more) = eventLoop (fst (eventLoop m msgs)) more.
Proof.
  induction msgs as [|msg msgs IH]; intros m H; [reflexivity|].
  cbn [eventLoop app] in *.
  destruct (Update m msg) as [m' [|]]; cbn [fst snd] in *.
  - now apply IH.
  - discriminate.
Qed.

Lemma initialModel_fields sys remote :
  allBranches (initialModel sys remote) = branches (initialModel sys remote)
  /\ branches (initialModel sys remote) = fst (getRecentBranches sys remote)
  /\ err (initialModel sys remote) = snd (getRecentBranches sys remote)
  /\ Filter.remote (initialModel sys remote) = remote
  /\ selected (initialModel sys remote) = false.
Proof.
  unfold initialModel. now destruct (getRecentBranches sys remote).
Qed.

Lemma sliceAt_inBounds (s : list string) (i : Z) :
  inBounds s i -> exists b, sliceAt s i = Some b.
Proof.
  unfold inBounds, sliceAt, sliceLen. intros H.
  destruct (Z.ltb_spec i 0); [lia|].
  destruct (nth_error s (Z.to_nat i)) as [b|] eqn:E; [now exists b|].
  apply nth_error_None in E. lia.
Qed.

Lemma sliceLen_nonempty (s : list string) : s <> [] <-> 0 < sliceLen s.
Proof.
  unfold sliceLen. destruct s; simpl; split; intros; try easy; lia.
Qed.

End Facts.

End FilterFacts.

Import FilterFacts.

Section Reachable.

Context {L : Lowering}.

(** * The claims *)

(** ** C3 and C10: the window and the cursor in every reachable state *)

(** C3: in every state the selector of [part_000] reaches from its initial
    state by any sequence of messages, if the visible list is not empty
    then [offset <= cursor < offset + 10] and [0 <= offset]. *)
Theorem C3_window_invariant (sys : System) (remote : bool) (msgs : list Msg) :
  Filter.branches
    (fst (Filter.eventLoop (Filter.initialModel sys remote) msgs)) <> [] ->
  window
    (Filter.cursor (fst (Filter.eventLoop (Filter.initialModel sys remote) msgs)))
    (Filter.offset (fst (Filter.eventLoop (Filter.initialModel sys remote) msgs))).
Proof.
  intros _.
  apply (eventLoop_wellFormed _ msgs (initialModel_wellFormed sys remote)).
Qed.

(** The window invariant needs no condition on the list: with an empty
    list the cursor and the offset stay 0. *)
Lemma window_always (sys : System) (remote : bool) (msgs : list Msg) :
  wellFormed (fst (Filter.eventLoop (Filter.initialModel sys remote) msgs)).
Proof. apply eventLoop_wellFormed, initialModel_wellFormed. Qed.

(** A terminal state with a non-empty list has its cursor inside it. *)
Lemma terminal_inBounds (sys : System) (remote : bool) (msgs : list Msg)
    (finalModel : Filter.model) :
  Filter.eventLoop (Filter.initialModel sys remote) msgs = (finalModel, true) ->
  Filter.branches finalModel <> [] ->
  inBounds (Filter.branches finalModel) (Filter.cursor finalModel).
Proof.
  intros Hrun Hne.
  pose proof (window_always sys remote msgs) as (_ & H0 & Hc).
  rewrite Hrun in H0, Hc. cbn [fst] in H0, Hc.
  apply sliceLen_nonempty in Hne. unfold inBounds; lia.
Qed.

(** C10: in every terminal state the selector of [part_000] reaches, if the
    visible list is not empty then [0 <= cursor < len(branches)], so the
    index expression [branches[cursor]] of [main] yields a branch. *)
Theorem C10_cursor_in_bounds (sys : System) (remote : bool) (msgs : list Msg)
    (finalModel : Filter.model) :
  Filter.eventLoop (Filter.initialModel sys remote) msgs = (finalModel, true) ->
  Filter.branches finalModel <> [] ->
  inBounds (Filter.branches finalModel) (Filter.cursor finalModel)
  /\ exists b, sliceAt (Filter.branches finalModel) (Filter.cursor finalModel)
               = Some b.
Proof.
  intros Hrun Hne.
  pose proof (terminal_inBounds sys remote msgs finalModel Hrun Hne) as Hb.
  split; [exact Hb | now apply sliceAt_inBounds].
Qed.

(** [main] of [part_000] never panics on its index expression. *)
Lemma Filter_main_no_panic (sys : System) (flags : FlagParse)
    (msgs : list Msg) (failure : option error) :
  Filter.main sys flags msgs failure <> Some Panic.
Proof.
  unfold Filter.main. destruct flags as [remote|status]; [|discriminate].
  destruct (Filter.eventLoop (Filter.initialModel sys remote) msgs)
    as [m [|]] eqn:Hrun; [|destruct failure; discriminate].
  unfold Filter.finish. destruct (Filter.err m); [discriminate|].
  destruct (Filter.selected m); cbn [andb]; [|discriminate].
  destruct (Z.ltb_spec 0 (sliceLen (Filter.branches m))); [|discriminate].
  destruct (sliceAt_inBounds (Filter.branches m) (Filter.cursor m)) as [b ->].
  { apply (terminal_inBounds sys remote msgs m Hrun).
    now apply sliceLen_nonempty. }
  unfold Filter.checkoutBranch. now destruct (Run sys _).
Qed.

(** ** C7: the move keys *)

Lemma Filter_navigation (key : string) (m : Filter.model) :
  Filter.filterMode m = false ->
  inBounds (Filter.branches m) (Filter.cursor m) ->
  window (Filter.cursor m) (Filter.offset m) ->
  navigates key (Filter.branches m) (Filter.cursor m) (Filter.offset m)
    (Filter.branches (fst (Filter.Update m (KeyMsg key))))
    (Filter.cursor (fst (Filter.Update m (KeyMsg key))))
    (Filter.offset (fst (Filter.Update m (KeyMsg key))))
    (snd (Filter.Update m (KeyMsg key))).
Proof.
  unfold navigates, isMoveDown, isMoveUp, movesDown, movesUp, inBounds, window.
  destruct m as [bs all c o r sel e fm ft fa]; cbn [Filter.filterMode
    Filter.branches Filter.cursor Filter.offset].
  intros -> Hb Hw.
  split; [|split]; intros H;
    repeat match type of H with _ \/ _ => destruct H as [H|H] end; subst key;
    unfold Filter.Update, Filter.updateNormalMode; FilterFacts.assign;
    eval_keys; FilterFacts.assign; split_ifs; FilterFacts.assign;
    repeat apply conj; try reflexivity; lia.
Qed.

End Reachable.

Module RemoteFacts.

Import Remote.

Ltac assign :=
  cbn [fst snd set_offset set_cursor branches cursor offset remote err]
    in *.

Lemma navigation (key : string) (m : model) :
  inBounds (branches m) (cursor m) ->
  window (cursor m) (offset m) ->
  navigates key (branches m) (cursor m) (offset m)
    (branches (fst (Update m (KeyMsg key))))
    (cursor (fst (Update m (KeyMsg key))))
    (offset (fst (Update m (KeyMsg key))))
    (snd (Update m (KeyMsg key))).
Proof.
  unfold navigates, isMoveDown, isMoveUp, movesDown, movesUp, inBounds,
    window.
  destruct m as [bs c o r e]; cbn [branches cursor offset].
  intros Hb Hw.
  split; [|split]; intros H;
    repeat match type of H with _ \/ _ => destruct H as [H|H] end;
    subst key; unfold Update; assign;
    eval_keys; assign; split_ifs; assign;
    repeat apply conj; try reflexivity; lia.
Qed.

Lemma initialModel_invariant sys remote :
  invariant (branches (initialModel sys remote))
    (cursor (initialModel sys remote)) (offset (initialModel sys remote)).
Proof.
  unfold initialModel. destruct (getRecentBranches sys remote) as [bs e].
  unfold invariant, window; assign. lia.
Qed.

Lemma Update_invariant m msg :
  invariant (branches m) (cursor m) (offset m) ->
  invariant (branches (fst (Update m msg))) (cursor (fst (Update m msg)))
    (offset (fst (Update m msg))).
Proof.
  unfold invariant, window.
  destruct msg as [key|]; [|exact (fun H => H)].
  destruct m; unfold Update; assign; split_ifs; assign; lia.
Qed.

Lemma eventLoop_invariant msgs : forall m,
  invariant (branches m) (cursor m) (offset m) ->
  invariant (branches (fst (eventLoop m msgs)))
    (cursor (fst (eventLoop m msgs))) (offset (fst (eventLoop m msgs))).
Proof.
  induction msgs as [|msg msgs IH]; intros m H; [exact H|].
  cbn [eventLoop]. pose proof (Update_invariant m msg H) as H'.
  destruct (Update m msg) as [m' [|]]; cbn [fst] in *.
  - now apply IH.
  - exact H'.
Qed.

End RemoteFacts.

Section Claims.

Context {L : Lowering}.

Lemma invariant_nonempty (visible : list string) (c o : Z) :
  invariant visible c o -> visible <> [] ->
  inBounds visible c /\ window c o.
Proof.
  intros (Hw & H0 & Hc) Hne. apply sliceLen_nonempty in Hne.
  split; [unfold inBounds; lia | exact Hw].
Qed.

(** C7: in every state with a non-empty visible list that [part_000] (in
    normal mode) or [main.go] reaches, move-down ([down], [j]) sets the
    cursor to [min(len-1, cursor+1)] and adds 1 to the offset when the
    cursor reaches [offset+10]; move-up ([up], [k]) sets it to
    [max(0, cursor-1)] and sets the offset to the cursor when the cursor
    moved above the window; the cursor stays within [0, len-1]. *)
Theorem C7_navigation (sys : System) (remote : bool) (msgs msgs' : list Msg)
    (key : string) :
  Filter.filterMode
    (fst (Filter.eventLoop (Filter.initialModel sys remote) msgs)) = false ->
  Filter.branches
    (fst (Filter.eventLoop (Filter.initialModel sys remote) msgs)) <> [] ->
  Remote.branches
    (fst (Remote.eventLoop (Remote.initialModel sys remote) msgs')) <> [] ->
  (forall m, m = fst (Filter.eventLoop (Filter.initialModel sys remote) msgs) ->
     navigates key (Filter.branches m) (Filter.cursor m) (Filter.offset m)
       (Filter.branches (fst (Filter.Update m (KeyMsg key))))
       (Filter.cursor (fst (Filter.Update m (KeyMsg key))))
       (Filter.offset (fst (Filter.Update m (KeyMsg key))))
       (snd (Filter.Update m (KeyMsg key))))
  /\ (forall r,
        r = fst (Remote.eventLoop (Remote.initialModel sys remote) msgs') ->
        navigates key (Remote.branches r) (Remote.cursor r) (Remote.offset r)
          (Remote.branches (fst (Remote.Update r (KeyMsg key))))
          (Remote.cursor (fst (Remote.Update r (KeyMsg key))))
          (Remote.offset (fst (Remote.Update r (KeyMsg key))))
          (snd (Remote.Update r (KeyMsg key)))).
Proof.
  intros Hf Hne Hne'. split.
  - intros m ->.
    destruct (invariant_nonempty _ _ _ (window_always sys remote msgs) Hne).
    now apply Filter_navigation.
  - intros r ->.
    destruct (invariant_nonempty _ _ _
                (RemoteFacts.eventLoop_invariant msgs' _
                   (RemoteFacts.initialModel_invariant sys remote)) Hne').
    now apply RemoteFacts.navigation.
Qed.

(** ** C9: no way out of the program from filter mode *)

Lemma one_byte_key (key : string) :
  len key = 1 -> exists c, key = String c "".
Proof.
  unfold len. destruct key as [|c [|d key]]; cbn [String.length]; intros H;
    try lia. now exists c.
Qed.

(** In filter mode a key of one byte is typed into the filter. *)
Lemma Update_types (m : Filter.model) (key : string) :
  Filter.filterMode m = true ->
  len key = 1 ->
  Filter.Update m (KeyMsg key)
  = (Filter.applyFilter
       (Filter.set_filterText (Filter.filterText m ++ key)%string m),
     CmdNil).
Proof.
  intros Hf Hk. destruct (one_byte_key key Hk) as [c ->].
  unfold Filter.Update, Filter.updateFilterMode. rewrite Hf.
  cbn [String.eqb].
  repeat match goal with
         | |- context [Ascii.eqb c ?d] => destruct (Ascii.eqb c d)
         end;
    now rewrite (proj2 (Z.eqb_eq _ _) Hk).
Qed.

(** In filter mode the erase key drops the last byte of a filter text
    that is not empty, and recomputes the list. *)
Lemma Update_erases (m : Filter.model) :
  Filter.filterMode m = true ->
  Filter.filterText m <> "" ->
  Filter.Update m (KeyMsg "backspace")
  = (Filter.applyFilter
       (Filter.set_filterText
          (substring 0 (String.length (Filter.filterText m) - 1)
                     (Filter.filterText m)) m),
     CmdNil).
Proof.
  intros Hf Ht. unfold Filter.Update, Filter.updateFilterMode. rewrite Hf.
  eval_keys. unfold len.
  destruct (Filter.filterText m) as [|c t] eqn:E; [contradiction|].
  reflexivity.
Qed.

(** C9: while [part_000] is in filter mode no key press answers
    [tea.Quit]: [q] is appended to the filter text, [ctrl+c] changes
    nothing, and the mode is left, for normal mode, by [esc] and [enter]
    and by no other key. *)
Theorem C9_filtering_never_terminates (m : Filter.model) (key : string) :
  Filter.filterMode m = true ->
  snd (Filter.Update m (KeyMsg key)) = CmdNil
  /\ Filter.selected (fst (Filter.Update m (KeyMsg key))) = Filter.selected m
  /\ (Filter.filterMode (fst (Filter.Update m (KeyMsg key))) = false
      <-> key = "esc" \/ key = "enter")
  /\ Filter.filterText (fst (Filter.Update m (KeyMsg "q")))
     = (Filter.filterText m ++ "q")%string
  /\ Filter.filterMode (fst (Filter.Update m (KeyMsg "q"))) = true
  /\ Filter.Update m (KeyMsg "ctrl+c") = (m, CmdNil).
Proof.
  intros Hf. split; [|split; [|split; [|split; [|split]]]].
  - unfold Filter.Update. now rewrite Hf.
  - revert Hf. update_paths m; intros Hfm;
      first [discriminate Hfm | reflexivity].
  - revert Hf. update_paths m; intros Hfm; try discriminate Hfm;
      split; intros Hk;
      first [ reflexivity
            | discriminate Hk
            | left; now apply String.eqb_eq
            | right; now apply String.eqb_eq
            | destruct Hk as [-> | ->]; vm_compute in *;
              match goal with
              | E : true = false |- _ => discriminate E
              end ].
  - rewrite (Update_types m "q" Hf eq_refl). cbn [fst].
    destruct m; unfold Filter.applyFilter; assign; split_ifs; reflexivity.
  - rewrite (Update_types m "q" Hf eq_refl). cbn [fst].
    revert Hf.
    destruct m; unfold Filter.applyFilter; assign; split_ifs; trivial.
  - unfold Filter.Update, Filter.updateFilterMode. now rewrite Hf.
Qed.

(** Filter mode over a run: as long as neither [esc] nor [enter] is
    pressed the loop keeps running, in filter mode. *)
Lemma filtering_run (msgs : list Msg) : forall m : Filter.model,
  Filter.filterMode m = true ->
  ~ In (KeyMsg "esc") msgs -> ~ In (KeyMsg "enter") msgs ->
  snd (Filter.eventLoop m msgs) = false
  /\ Filter.filterMode (fst (Filter.eventLoop m msgs)) = true.
Proof.
  induction msgs as [|msg msgs IH]; intros m Hf Hesc Hent; [now split|].
  cbn [Filter.eventLoop].
  assert (snd (Filter.Update m msg) = CmdNil
          /\ Filter.filterMode (fst (Filter.Update m msg)) = true) as [Hc Hm].
  { destruct msg as [key|]; [|now split].
    split; [unfold Filter.Update; now rewrite Hf|].
    destruct (Filter.filterMode (fst (Filter.Update m (KeyMsg key)))) eqn:E;
      [reflexivity|].
    revert Hf E. update_paths m; intros Hfm E;
      first [ discriminate Hfm | discriminate E
            | match goal with
              | Hq : String.eqb key _ = true |- _ =>
                  apply String.eqb_eq in Hq; subst key; cbn [In] in *; tauto
              end ]. }
  destruct (Filter.Update m msg) as [m' cmd]; cbn [fst snd] in *. subst cmd.
  apply IH; [exact Hm | |]; cbn [In] in *; tauto.
Qed.

(** ** C6: committing a filter, then clearing it *)

(** C6: from any state of [part_000] reached in filter mode, whatever the
    filter text, [enter] followed by [esc] leaves the loop running with
    the visible list equal to the branch list the program started with,
    cursor and offset 0, no filter committed. *)
Theorem C6_commit_then_clear (sys : System) (remote : bool) (msgs : list Msg) :
  Filter.filterMode
    (fst (Filter.eventLoop (Filter.initialModel sys remote) msgs)) = true ->
  exists m' : Filter.model,
    Filter.eventLoop
      (fst (Filter.eventLoop (Filter.initialModel sys remote) msgs))
      [KeyMsg "enter"; KeyMsg "esc"] = (m', false)
    /\ Filter.branches m' = fst (Filter.getRecentBranches sys remote)
    /\ Filter.cursor m' = 0
    /\ Filter.offset m' = 0
    /\ Filter.filteredApplied m' = false
    /\ Filter.filterMode m' = false.
Proof.
  intros Hf.
  pose proof (eventLoop_allBranches (Filter.initialModel sys remote) msgs) as Ha.
  destruct (initialModel_fields sys remote) as (Hi & Hb & _).
  rewrite Hi, Hb in Ha. revert Hf Ha.
  generalize (fst (Filter.eventLoop (Filter.initialModel sys remote) msgs)).
  intros m Hf Ha. destruct m as [bs all c o r sel e fm ft fa].
  assign. subst fm all.
  eexists. split; [reflexivity|]. now assign.
Qed.

(** ** C4: recomputing the visible list *)

(** The empty text occurs in every lowered name. *)
Lemma containsLower_empty (s : string) : containsLower s "" = true.
Proof.
  unfold containsLower. rewrite (ToLower_ASCII "") by reflexivity.
  apply occurs_empty.
Qed.

(** [containsLower] read as a sentence: the lowered name splits around the
    lowered text. *)
Lemma occurs_spec (s sub : string) :
  occurs s sub = true
  <-> exists pre post : string, s = (pre ++ sub ++ post)%string.
Proof.
  unfold occurs. rewrite existsb_exists. split.
  - intros (i & Hi & He). apply in_seq in Hi. apply String.eqb_eq in He.
    assert (String.length (substring i (String.length sub) s)
            = String.length sub) as Hl by (now rewrite He).
    pose proof (substring_full_length s i _ ltac:(lia) Hl) as Hb.
    pose proof (substring_split s i (String.length sub) Hb) as Hs.
    rewrite He in Hs. eauto.
  - intros (pre & post & ->).
    exists (String.length pre). split.
    + apply in_seq. rewrite length_append. lia.
    + rewrite substring_middle. apply String.eqb_refl.
Qed.

(** On ASCII names and texts [containsLower] is the test for an occurrence
    up to the case of letters. *)
Lemma containsLower_ASCII (s sub : string) :
  isASCII s = true -> isASCII sub = true ->
  containsLower s sub = containsFold s sub.
Proof.
  intros Hs Hsub. unfold containsLower.
  rewrite (ToLower_ASCII s Hs), (ToLower_ASCII sub Hsub).
  rewrite <- Contains_occurs. apply Contains_fold.
Qed.

(** The example of the specification, whatever [strings.ToLower] does
    outside ASCII: [FEAT] matches [feature/x]. *)
Lemma filter_FEAT : containsLower "feature/x" "FEAT" = true.
Proof. now rewrite containsLower_ASCII. Qed.

(** [applyFilter] on any model, in the words of the specification. *)
Lemma applyFilter_spec (m : Filter.model) :
  Filter.branches (Filter.applyFilter m)
  = filter (fun b => containsLower b (Filter.filterText m))
           (Filter.allBranches m)
  /\ Filter.cursor (Filter.applyFilter m) = 0
  /\ Filter.offset (Filter.applyFilter m) = 0
  /\ Filter.allBranches (Filter.applyFilter m) = Filter.allBranches m
  /\ Filter.filterText (Filter.applyFilter m) = Filter.filterText m.
Proof.
  destruct m as [bs all c o r sel e fm ft fa].
  unfold Filter.applyFilter; assign.
  destruct (String.eqb_spec ft ""); assign; repeat apply conj; trivial.
  - subst ft. symmetry. apply forallb_filter_id, forallb_forall.
    intros b _. apply containsLower_empty.
  - rewrite collect_filter. apply filter_ext.
    intros b. apply Contains_occurs.
Qed.

(** C4: whatever state [part_000] has reached and whatever the filter
    text, [applyFilter] makes the visible list the entries of the branch
    list that contain the text as a case-insensitive substring (lowered
    by [strings.ToLower], the name holds the lowered text), in the order
    of the branch list; the empty text gives the whole branch list;
    cursor and offset are 0 afterwards. *)
Theorem C4_filter_recomputation (sys : System) (remote : bool)
    (msgs : list Msg) (text : string) :
  Filter.branches
    (Filter.applyFilter
       (Filter.set_filterText text
          (fst (Filter.eventLoop (Filter.initialModel sys remote) msgs))))
  = filter (fun b => containsLower b text)
           (fst (Filter.getRecentBranches sys remote))
  /\ Filter.branches
       (Filter.applyFilter
          (Filter.set_filterText ""
             (fst (Filter.eventLoop (Filter.initialModel sys remote) msgs))))
     = fst (Filter.getRecentBranches sys remote)
  /\ Filter.cursor
       (Filter.applyFilter
          (Filter.set_filterText text
             (fst (Filter.eventLoop (Filter.initialModel sys remote) msgs))))
     = 0
  /\ Filter.offset
       (Filter.applyFilter
          (Filter.set_filterText text
             (fst (Filter.eventLoop (Filter.initialModel sys remote) msgs))))
     = 0.
Proof.
  pose proof (eventLoop_allBranches (Filter.initialModel sys remote) msgs) as Ha.
  destruct (initialModel_fields sys remote) as (Hi & Hb & _).
  rewrite Hi, Hb in Ha. revert Ha.
  generalize (fst (Filter.eventLoop (Filter.initialModel sys remote) msgs)).
  intros m Ha.
  destruct (applyFilter_spec (Filter.set_filterText text m))
    as (H1 & H2 & H3 & _).
  destruct (applyFilter_spec (Filter.set_filterText "" m)) as (H4 & _).
  destruct m as [bs all c o r sel e fm ft fa]. assign. subst all.
  repeat apply conj; trivial.
Qed.

(** ** C5: the command line of a remote checkout *)

Lemma sliceAt_nonempty (s : list string) (i : Z) (b : string) :
  sliceAt s i = Some b -> (0 <? sliceLen s) = true.
Proof.
  unfold sliceAt, sliceLen. destruct (i <? 0); [discriminate|].
  destruct s; [now destruct (Z.to_nat i)|]. intros _.
  apply Z.ltb_lt. cbn [List.length]. lia.
Qed.

Lemma checkoutCommand_same (branch : string) (remote : bool) :
  Remote.checkoutCommand branch remote = Filter.checkoutCommand branch remote.
Proof. reflexivity. Qed.

(** A remote-tracking name [rem/localName], [rem] free of slashes, is
    cut at its first slash. *)
Lemma checkoutCommand_tracked (rem localName : string) :
  noSlash rem ->
  Filter.checkoutCommand (rem ++ "/" ++ localName) true
  = ["git"; "checkout"; localName].
Proof.
  intros H. unfold Filter.checkoutCommand, SplitN. cbn [Z.ltb Z.compare Z.to_nat].
  change (Pos.to_nat 2) with 2%nat.
  change ("/" ++ localName)%string with (String slash localName).
  now rewrite (splitUpTo_first_sep rem localName slash H).
Qed.

Lemma checkoutCommand_untracked (branch : string) :
  noSlash branch ->
  Filter.checkoutCommand branch true = ["git"; "checkout"; "--track"; branch].
Proof.
  intros H. unfold Filter.checkoutCommand, SplitN. cbn [Z.ltb Z.compare Z.to_nat].
  change (Pos.to_nat 2) with 2%nat.
  now rewrite (splitUpTo_no_sep branch slash H).
Qed.

(** Every branch name is of one of the two forms. *)
Lemma branch_forms (branch : string) :
  noSlash branch
  \/ exists rem localName,
       branch = (rem ++ "/" ++ localName)%string /\ noSlash rem.
Proof.
  unfold noSlash.
  destruct (Contains branch (String slash "")) eqn:E; [right | now left].
  exact (Contains_first_sep branch slash E).
Qed.

(** C5: when the selector ends with a selected branch under the remote
    flag, [main] runs the command line of [checkoutBranch] for it: for a
    branch [rem/localName] that is [git checkout localName], for a name
    without a slash it is [git checkout --track] of the full name; for
    [origin/feature/x] the local name is [feature/x].  [part_000] and
    [main.go] build the same command line. *)
Theorem C5_remote_checkout (sys : System) (finalModel : Filter.model)
    (branch : string) :
  Filter.err finalModel = None ->
  Filter.selected finalModel = true ->
  Filter.remote finalModel = true ->
  sliceAt (Filter.branches finalModel) (Filter.cursor finalModel)
  = Some branch ->
  (exists code out,
      Filter.finish sys finalModel
      = Exit code out [Filter.checkoutCommand branch true])
  /\ (forall rem localName,
         noSlash rem -> branch = (rem ++ "/" ++ localName)%string ->
         Filter.checkoutCommand branch true = ["git"; "checkout"; localName])
  /\ (noSlash branch ->
      Filter.checkoutCommand branch true
      = ["git"; "checkout"; "--track"; branch])
  /\ Filter.checkoutCommand "origin/feature/x" true
     = ["git"; "checkout"; "feature/x"]
  /\ Remote.checkoutCommand branch true = Filter.checkoutCommand branch true.
Proof.
  intros He Hs Hr Hb. repeat apply conj.
  - unfold Filter.finish. rewrite He, Hs, Hb, Hr.
    rewrite (sliceAt_nonempty _ _ _ Hb). cbn [andb].
    unfold Filter.checkoutBranch.
    destruct (Run sys (Filter.checkoutCommand branch true)); eauto.
  - intros rem localName Hn ->. now apply checkoutCommand_tracked.
  - apply checkoutCommand_untracked.
  - reflexivity.
  - reflexivity.
Qed.

(** The same for [main] of [main.go], which has no [selected] field. *)
Lemma Remote_finish_checkout (sys : System) (finalModel : Remote.model)
    (branch : string) :
  Remote.err finalModel = None ->
  sliceAt (Remote.branches finalModel) (Remote.cursor finalModel)
  = Some branch ->
  exists code out,
    Remote.finish sys finalModel
    = Exit code out
        [Remote.checkoutCommand branch (Remote.remote finalModel)].
Proof.
  intros He Hb. unfold Remote.finish. rewrite He, Hb.
  rewrite (sliceAt_nonempty _ _ _ Hb).
  unfold Remote.checkoutBranch.
  destruct (Run sys (Remote.checkoutCommand branch (Remote.remote finalModel)));
    eauto.
Qed.

(** ** C2: the confirm key in normal mode *)

(** C2, amended: in normal mode the confirm key always sets [selected]
    and answers [tea.Quit]; [main] then checks out the branch under the
    cursor if the visible list is not empty, and runs nothing and exits
    with 0 if it is empty (no fetch error, cursor inside the list). *)
Theorem C2_confirm_always_quits (sys : System) (m : Filter.model) :
  Filter.filterMode m = false ->
  Filter.err m = None ->
  Filter.branches m = [] \/ inBounds (Filter.branches m) (Filter.cursor m) ->
  Filter.Update m (KeyMsg "enter") = (Filter.set_selected true m, Quit)
  /\ (Filter.branches m = [] ->
      Filter.finish sys (Filter.set_selected true m) = Exit 0 "" [])
  /\ (Filter.branches m <> [] ->
      exists b code out,
        sliceAt (Filter.branches m) (Filter.cursor m) = Some b
        /\ Filter.finish sys (Filter.set_selected true m)
           = Exit code out [Filter.checkoutCommand b (Filter.remote m)]).
Proof.
  intros Hf He Hb. repeat apply conj.
  - unfold Filter.Update, Filter.updateNormalMode. now rewrite Hf.
  - intros Hn. unfold Filter.finish.
    destruct m; assign. now subst.
  - intros Hn. destruct Hb as [Hb|Hb]; [contradiction|].
    destruct (sliceAt_inBounds _ _ Hb) as [b Hs]. exists b.
    unfold Filter.finish. destruct m; assign. subst.
    rewrite Hs, (sliceAt_nonempty _ _ _ Hs). cbn [andb].
    unfold Filter.checkoutBranch.
    destruct (Run sys _); eauto.
Qed.

(** ** C8: parsing the output of [git for-each-ref] *)

Lemma Filter_parseBranches_spec (output : string) :
  Filter.parseBranches output = branchLines output.
Proof.
  unfold Filter.parseBranches, branchLines.
  rewrite collect_filter, filter_filter. reflexivity.
Qed.

Lemma Remote_parseBranches_spec (output : string) :
  Remote.parseBranches output = branchLines output.
Proof.
  unfold Remote.parseBranches, branchLines.
  rewrite collect_filter, filter_filter. reflexivity.
Qed.

Lemma Local_parseBranches_spec (output : string) :
  Local.parseBranches output = nonEmptyLines output.
Proof.
  unfold Local.parseBranches, nonEmptyLines. apply collect_filter.
Qed.

(** No entry of [branchLines] is empty or a pointer, and every other line
    of the trimmed output is an entry. *)
Lemma branchLines_entries (output b : string) :
  In b (branchLines output)
  <-> In b (Split (TrimSpace output) LF) /\ b <> "" /\ isPointer b = false.
Proof.
  unfold branchLines. rewrite !filter_In, !negb_true_iff, String.eqb_neq.
  tauto.
Qed.

(** C8, refuted as stated: the parser of [part_001] keeps a line that ends
    in [/HEAD]. *)
Lemma C8_local_keeps_pointer :
  Local.parseBranches (unlines ["main"; "x/HEAD"]) = ["main"; "x/HEAD"]
  /\ branchLines (unlines ["main"; "x/HEAD"]) = ["main"]
  /\ ~ (forall output, Local.parseBranches output = branchLines output).
Proof.
  repeat apply conj; try reflexivity.
  intros H. specialize (H (unlines ["main"; "x/HEAD"])).
  vm_compute in H. discriminate H.
Qed.

(** C8, amended: in [part_000] and [main.go] the parsed branch list is
    the non-empty lines of the trimmed output, in order, without the lines
    ending in [/HEAD]; in [part_001], which lists local branches only, it
    is all the non-empty lines of the trimmed output, in order.  A failed
    command gives no list. *)
Theorem C8_parsed_branch_list (sys : System) (remote : bool) (output : string) :
  Filter.parseBranches output = branchLines output
  /\ Remote.parseBranches output = branchLines output
  /\ Local.parseBranches output = nonEmptyLines output
  /\ Filter.getRecentBranches sys remote
     = match Output sys (Filter.forEachRef remote) with
       | (out, None) => (branchLines out, None)
       | (_, Some e) => ([], Some e)
       end
  /\ Remote.getRecentBranches sys remote
     = match Output sys (Remote.forEachRef remote) with
       | (out, None) => (branchLines out, None)
       | (_, Some e) => ([], Some e)
       end
  /\ Local.getRecentBranches sys
     = match Output sys Local.forEachRef with
       | (out, None) => (nonEmptyLines out, None)
       | (_, Some e) => ([], Some e)
       end.
Proof.
  repeat apply conj.
  - apply Filter_parseBranches_spec.
  - apply Remote_parseBranches_spec.
  - apply Local_parseBranches_spec.
  - unfold Filter.getRecentBranches.
    destruct (Output sys (Filter.forEachRef remote)) as [out [e|]];
      [reflexivity|]. now rewrite Filter_parseBranches_spec.
  - unfold Remote.getRecentBranches.
    destruct (Output sys (Remote.forEachRef remote)) as [out [e|]];
      [reflexivity|]. now rewrite Remote_parseBranches_spec.
  - unfold Local.getRecentBranches.
    destruct (Output sys Local.forEachRef) as [out [e|]];
      [reflexivity|]. now rewrite Local_parseBranches_spec.
Qed.

(** ** C1: leaving without a selection *)

(** [part_000]: a run that ends on a cancelling key press runs no command;
    it exits with 0, or with 1 after a failed fetch, whose message it
    prints. *)
Lemma Filter_cancel (sys : System) (remote : bool) (msgs : list Msg)
    (key : string) (failure : option error) :
  snd (Filter.eventLoop (Filter.initialModel sys remote) msgs) = false ->
  cancels (fst (Filter.eventLoop (Filter.initialModel sys remote) msgs)) key ->
  Filter.main sys (Parsed remote) (msgs ++ [KeyMsg key]) failure
  = Some match snd (Filter.getRecentBranches sys remote) with
         | None => Exit 0 "" []
         | Some e => Exit 1 ("Error: " ++ e ++ nl)%string []
         end.
Proof.
  intros Hrun Hc. unfold Filter.main.
  rewrite (eventLoop_app msgs [KeyMsg key] _ Hrun).
  pose proof (eventLoop_selected_running msgs _ Hrun) as Hs.
  pose proof (eventLoop_err (Filter.initialModel sys remote) msgs) as He.
  destruct (initialModel_fields sys remote) as (_ & _ & He' & _ & Hs').
  rewrite Hs' in Hs. rewrite He' in He. clear He' Hs' Hrun.
  revert Hc Hs He.
  generalize (fst (Filter.eventLoop (Filter.initialModel sys remote) msgs)).
  intros m (Hf & Hk) Hs He.
  assert (Filter.Update m (KeyMsg key) = (m, Quit)) as Hq.
  { unfold Filter.Update, Filter.updateNormalMode. rewrite Hf.
    destruct Hk as [-> | [-> | [-> Ha]]]; try reflexivity.
    eval_keys. now rewrite Ha. }
  cbn [Filter.eventLoop]. rewrite Hq.
  unfold Filter.finish. rewrite Hs, He.
  now destruct (snd (Filter.getRecentBranches sys remote)).
Qed.

(** [main.go]: whatever key ends the loop, a fetched list that is not
    empty has its first branch checked out when that key comes first. *)
Lemma Remote_quit_checks_out (sys : System) (remote : bool)
    (b : string) (bs : list string) :
  Remote.getRecentBranches sys remote = (b :: bs, None) ->
  exists code out,
    Remote.main sys (Parsed remote) [KeyMsg "q"] None
    = Some (Exit code out [Remote.checkoutCommand b remote]).
Proof.
  intros H. unfold Remote.main, Remote.initialModel. rewrite H.
  cbn [Remote.eventLoop Remote.Update]. eval_keys.
  destruct (Remote_finish_checkout sys
              (Remote.mkModel (b :: bs) 0 0 remote None) b eq_refl eq_refl)
    as (code & out & E).
  exists code, out. now rewrite E.
Qed.

(** C1, on [main.go]: one local branch [main], the quit key [q] pressed
    at once; the process runs [git checkout main] and exits with 0, where
    the claim has no checkout. *)
Theorem C1_remote_quit_runs_checkout :
  Remote.main (repo ["main"]) (Parsed false) [KeyMsg "q"] None
  = Some (Exit 0 ("Checking out: main" ++ nl) [["git"; "checkout"; "main"]]).
Proof. reflexivity. Qed.

(** * Further properties of the three programs *)

(** ** [part_000]: what the visible list can be *)

(** A message either leaves the visible list alone or replaces it by the
    branch list filtered by the filter text of the new state, cursor and
    offset back at 0. *)
Lemma Update_branches_cases (m : Filter.model) (msg : Msg) :
  Filter.branches (fst (Filter.Update m msg)) = Filter.branches m
  \/ (Filter.branches (fst (Filter.Update m msg))
      = filter (fun b => containsLower b
                           (Filter.filterText (fst (Filter.Update m msg))))
               (Filter.allBranches m)
      /\ Filter.cursor (fst (Filter.Update m msg)) = 0
      /\ Filter.offset (fst (Filter.Update m msg)) = 0).
Proof.
  destruct msg as [key|]; [|now left].
  destruct m as [bs all c o r sel e fm ft fa].
  unfold Filter.Update, Filter.updateFilterMode, Filter.updateNormalMode.
  FilterFacts.assign. split_ifs; FilterFacts.assign;
    first
      [ now left
      | right;
        match goal with
        | |- context [Filter.applyFilter ?M] =>
            destruct (applyFilter_spec M) as (HS1 & HS2 & HS3 & HS4 & HS5);
            rewrite HS5, HS1, HS2, HS3; FilterFacts.assign; now auto
        end
      | right; repeat apply conj; try reflexivity;
        symmetry; apply forallb_filter_id, forallb_forall;
        intros b _; apply containsLower_empty ].
Qed.

(** X1: [Update] of [part_000] never changes the visible list under the
    cursor: if the list after a message differs from the list before,
    cursor and offset are 0. *)
Theorem Update_list_change_resets (m : Filter.model) (msg : Msg) :
  Filter.branches (fst (Filter.Update m msg)) <> Filter.branches m ->
  Filter.cursor (fst (Filter.Update m msg)) = 0
  /\ Filter.offset (fst (Filter.Update m msg)) = 0.
Proof.
  intros H. destruct (Update_branches_cases m msg) as [E|(_ & Hc & Ho)];
    [contradiction | now split].
Qed.

(** X2: in every state [part_000] reaches, the visible list is the
    fetched branch list filtered by some text: a subsequence of it, in its
    order. *)
Theorem visible_is_filtered (sys : System) (remote : bool) (msgs : list Msg) :
  exists text : string,
    Filter.branches
      (fst (Filter.eventLoop (Filter.initialModel sys remote) msgs))
    = filter (fun b => containsLower b text)
             (fst (Filter.getRecentBranches sys remote)).
Proof.
  destruct (initialModel_fields sys remote) as (Hi & Hb & _).
  rewrite <- Hb.
  apply (eventLoop_preserves
           (fun m =>
              Filter.allBranches m
              = Filter.branches (Filter.initialModel sys remote)
              /\ exists text,
                  Filter.branches m
                  = filter (fun b => containsLower b text)
                      (Filter.branches (Filter.initialModel sys remote)))).
  - intros m msg [Ha [text H]]. split.
    + now rewrite Update_allBranches.
    + destruct (Update_branches_cases m msg) as [E|(E & _)].
      * exists text. now rewrite E.
      * eexists. rewrite E, Ha. reflexivity.
  - split; [exact Hi|]. exists "". symmetry.
    apply forallb_filter_id, forallb_forall. intros b _.
    apply containsLower_empty.
Qed.

(** Every visible branch is a fetched branch. *)
Lemma visible_is_fetched (sys : System) (remote : bool) (msgs : list Msg)
    (b : string) :
  In b (Filter.branches
          (fst (Filter.eventLoop (Filter.initialModel sys remote) msgs))) ->
  In b (fst (Filter.getRecentBranches sys remote)).
Proof.
  destruct (initialModel_fields sys remote) as (Hi & Hb & _).
  rewrite <- Hb. revert b.
  apply (eventLoop_preserves
           (fun m =>
              Filter.allBranches m
              = Filter.branches (Filter.initialModel sys remote)
              /\ forall b, In b (Filter.branches m) ->
                           In b (Filter.branches
                                   (Filter.initialModel sys remote)))).
  - intros m msg [Ha H]. split; [now rewrite Update_allBranches|].
    intros b. destruct (Update_branches_cases m msg) as [E|(E & _)];
      rewrite E; [apply H|].
    rewrite Ha. intros Hin. now apply filter_In in Hin.
  - split; [exact Hi | auto].
Qed.

(** ** [part_000]: what [main] can do *)

(** Only the confirm key changes [selected]. *)
Lemma Update_selected_changes (m : Filter.model) (msg : Msg) :
  Filter.selected (fst (Filter.Update m msg)) <> Filter.selected m ->
  msg = KeyMsg "enter".
Proof.
  destruct msg as [key|]; [|now intros []].
  update_paths m; intros Hs;
    first [ now destruct Hs
          | match goal with
            | Hq : String.eqb key "enter" = true |- _ =>
                apply String.eqb_eq in Hq; now subst key
            end ].
Qed.

Lemma eventLoop_selected_enter (msgs : list Msg) : forall m : Filter.model,
  Filter.selected m = false ->
  Filter.selected (fst (Filter.eventLoop m msgs)) = true ->
  In (KeyMsg "enter") msgs.
Proof.
  induction msgs as [|msg msgs IH]; intros m Hm Hs; cbn [Filter.eventLoop] in Hs.
  - cbn [fst] in Hs. congruence.
  - destruct (Bool.bool_dec (Filter.selected (fst (Filter.Update m msg)))
                            (Filter.selected m)) as [E|E].
    + right. destruct (Filter.Update m msg) as [m' [|]]; cbn [fst] in *.
      * apply (IH m'); congruence.
      * congruence.
    + left. now apply Update_selected_changes with (m := m).
Qed.

(** What [finish] does with a final model whose cursor is in bounds. *)
Lemma Filter_finish_cases (sys : System) (m : Filter.model) :
  wellFormed m ->
  match Filter.err m with
  | Some e => Filter.finish sys m = Exit 1 ("Error: " ++ e ++ nl) []
  | None =>
      (Filter.finish sys m = Exit 0 "" []
       /\ (Filter.selected m = false \/ Filter.branches m = []))
      \/ exists b,
           Filter.selected m = true
           /\ sliceAt (Filter.branches m) (Filter.cursor m) = Some b
           /\ In b (Filter.branches m)
           /\ match Run sys (Filter.checkoutCommand b (Filter.remote m)) with
              | None =>
                  Filter.finish sys m
                  = Exit 0 ("Checking out: " ++ b ++ nl)
                      [Filter.checkoutCommand b (Filter.remote m)]
              | Some e =>
                  Filter.finish sys m
                  = Exit 1 (("Checking out: " ++ b ++ nl)
                            ++ "Failed to checkout branch: " ++ e ++ nl)
                      [Filter.checkoutCommand b (Filter.remote m)]
              end
  end.
Proof.
  intros (_ & H0 & Hc). unfold Filter.finish.
  destruct (Filter.err m) as [e|]; [reflexivity|].
  destruct (Filter.selected m); cbn [andb]; [|left; split; auto].
  destruct (Z.ltb_spec 0 (sliceLen (Filter.branches m))) as [Hl|Hl].
  - right.
    destruct (sliceAt_inBounds (Filter.branches m) (Filter.cursor m))
      as [b Hb]; [unfold inBounds; lia|].
    exists b. rewrite Hb. repeat apply conj; trivial.
    + unfold sliceAt in Hb. destruct (Filter.cursor m <? 0); [discriminate|].
      now apply nth_error_In in Hb.
    + unfold Filter.checkoutBranch.
      now destruct (Run sys (Filter.checkoutCommand b (Filter.remote m))).
  - left. split; [reflexivity|]. right.
    unfold sliceLen in Hl. destruct (Filter.branches m); [reflexivity|].
    cbn [List.length] in Hl. lia.
Qed.

(** How a run of [main] of [part_000] can finish. *)
Lemma Filter_main_cases (sys : System) (flags : FlagParse) (msgs : list Msg)
    (failure : option error) (res : Result) :
  Filter.main sys flags msgs failure = Some res ->
  (exists status, flags = FlagExit status /\ res = Exit status "" [])
  \/ exists remote,
       flags = Parsed remote
       /\ ((exists m,
               Filter.eventLoop (Filter.initialModel sys remote) msgs
               = (m, true)
               /\ res = Filter.finish sys m)
           \/ (exists e,
                  snd (Filter.eventLoop (Filter.initialModel sys remote) msgs)
                  = false
                  /\ failure = Some e
                  /\ res = Exit 1 ("Error: " ++ e ++ nl) [])).
Proof.
  unfold Filter.main. destruct flags as [remote|status].
  - intros H. right. exists remote. split; [reflexivity|].
    destruct (Filter.eventLoop (Filter.initialModel sys remote) msgs)
      as [m [|]].
    + left. exists m. injection H as <-. now split.
    + right. destruct failure as [e|]; [|discriminate].
      exists e. injection H as <-. now repeat split.
  - intros H. left. exists status. injection H as <-. now split.
Qed.

(** X3: whenever [main] of [part_000] finishes it has not panicked and has
    run at most one command, and a command it ran is the checkout command
    line, under the flag given, of one of the fetched branches. *)
Theorem Filter_main_safe (sys : System) (flags : FlagParse) (msgs : list Msg)
    (failure : option error) (res : Result) :
  Filter.main sys flags msgs failure = Some res ->
  exists code out ran,
    res = Exit code out ran
    /\ (ran = []
        \/ exists remote b,
             flags = Parsed remote
             /\ In b (fst (Filter.getRecentBranches sys remote))
             /\ ran = [Filter.checkoutCommand b remote]).
Proof.
  intros H.
  destruct (Filter_main_cases _ _ _ _ _ H)
    as [(status & _ & ->)|(remote & Hfl & [(m & Hrun & ->)|(e & _ & _ & ->)])];
    [eauto 6| |eauto 6].
  pose proof (window_always sys remote msgs) as Hw.
  pose proof (eventLoop_remote (Filter.initialModel sys remote) msgs) as Hr.
  pose proof (visible_is_fetched sys remote msgs) as Hv.
  destruct (initialModel_fields sys remote) as (_ & _ & _ & Hr' & _).
  rewrite Hr' in Hr. clear Hr'.
  rewrite Hrun in Hw, Hr, Hv. cbn [fst] in *.
  pose proof (Filter_finish_cases sys m Hw) as Hf.
  destruct (Filter.err m) as [e|]; [rewrite Hf; eauto 6|].
  destruct Hf as [[-> _]|(b & _ & _ & Hin & Hf)]; [eauto 6|].
  rewrite Hr in Hf.
  destruct (Run sys (Filter.checkoutCommand b remote)); rewrite Hf;
    do 3 eexists; (split; [reflexivity|]); right; exists remote, b; auto.
Qed.

(** X4: [main] of [part_000] runs a command only after the confirm key
    [enter] was pressed. *)
Theorem Filter_checkout_needs_enter (sys : System) (flags : FlagParse)
    (msgs : list Msg) (failure : option error) (code : Z) (out : string)
    (ran : list (list string)) :
  Filter.main sys flags msgs failure = Some (Exit code out ran) ->
  ran <> [] ->
  In (KeyMsg "enter") msgs.
Proof.
  intros H Hran.
  destruct (Filter_main_cases _ _ _ _ _ H)
    as [(status & _ & E)|(remote & Hfl & [(m & Hrun & E)|(e & _ & _ & E)])];
    try (injection E as _ _ ->; contradiction).
  pose proof (window_always sys remote msgs) as Hw.
  pose proof (eventLoop_selected_enter msgs (Filter.initialModel sys remote))
    as He.
  destruct (initialModel_fields sys remote) as (_ & _ & _ & _ & Hs).
  specialize (He Hs). rewrite Hrun in Hw, He. cbn [fst] in *.
  pose proof (Filter_finish_cases sys m Hw) as Hf.
  destruct (Filter.err m) as [e|].
  - rewrite Hf in E. injection E as _ _ ->. contradiction.
  - destruct Hf as [[Hf _]|(b & Hsel & _)].
    + rewrite Hf in E. injection E as _ _ ->. contradiction.
    + now apply He.
Qed.

(** X5: when [main] of [part_000] finishes and [flag.Parse()] has ended
    the process, the exit code is the status [flag.Parse()] gave (2 for a
    rejected flag) and nothing was run.  Otherwise the exit code is 0 or 1,
    and it is 0 exactly when the fetch did not fail, a key ended the event
    loop ([p.Run()] returned no error) and no command that was run
    failed. *)
Theorem Filter_exit_code (sys : System) (flags : FlagParse) (msgs : list Msg)
    (failure : option error) (code : Z) (out : string)
    (ran : list (list string)) :
  Filter.main sys flags msgs failure = Some (Exit code out ran) ->
  match flags with
  | FlagExit status => code = status /\ ran = []
  | Parsed remote =>
      (code = 0 \/ code = 1)
      /\ (code = 0
          <-> snd (Filter.getRecentBranches sys remote) = None
              /\ snd (Filter.eventLoop (Filter.initialModel sys remote) msgs)
                 = true
              /\ forall cmd, In cmd ran -> Run sys cmd = None)
  end.
Proof.
  intros H.
  destruct (Filter_main_cases _ _ _ _ _ H)
    as [(status & -> & E)|(remote & -> & [(m & Hrun & E)|(e & Hrun & _ & E)])].
  - injection E as -> _ ->. now split.
  - pose proof (window_always sys remote msgs) as Hw.
    pose proof (eventLoop_err (Filter.initialModel sys remote) msgs) as He.
    destruct (initialModel_fields sys remote) as (_ & _ & He' & _).
    rewrite He' in He. clear He'. rewrite Hrun in Hw, He |- *.
    cbn [fst snd] in *.
    pose proof (Filter_finish_cases sys m Hw) as Hf. rewrite <- He.
    destruct (Filter.err m) as [e|].
    + rewrite Hf in E. injection E as -> _ _. split; [now right|].
      split; [discriminate | now intros [? _]].
    + destruct Hf as [[Hf _]|(b & _ & _ & _ & Hf)].
      * rewrite Hf in E. injection E as -> _ ->. split; [now left|].
        split; [now repeat split; try intros ? [] | reflexivity].
      * destruct (Run sys (Filter.checkoutCommand b (Filter.remote m)))
          as [e|] eqn:Hr; rewrite Hf in E; injection E as -> _ ->.
        -- split; [now right|]. split; [discriminate|].
           intros (_ & _ & Hall).
           specialize (Hall _ (or_introl eq_refl)). congruence.
        -- split; [now left|]. split; [|reflexivity]. intros _.
           repeat split. intros cmd [<-|[]]. exact Hr.
  - injection E as -> _ _. rewrite Hrun. split; [now right|].
    split; [discriminate | now intros (_ & ? & _)].
Qed.

(** X6: from every running state of [part_000], two presses of [esc] end
    the event loop with nothing selected: [main] runs no command, and
    exits with 0 unless the fetch had failed. *)
Theorem Filter_esc_twice_cancels (sys : System) (remote : bool)
    (msgs : list Msg) (failure : option error) :
  snd (Filter.eventLoop (Filter.initialModel sys remote) msgs) = false ->
  Filter.main sys (Parsed remote) (msgs ++ [KeyMsg "esc"; KeyMsg "esc"])
    failure
  = Some match snd (Filter.getRecentBranches sys remote) with
         | None => Exit 0 "" []
         | Some e => Exit 1 ("Error: " ++ e ++ nl) []
         end.
Proof.
  intros Hrun. unfold Filter.main.
  rewrite (eventLoop_app msgs _ _ Hrun).
  pose proof (eventLoop_selected_running msgs _ Hrun) as Hs.
  pose proof (eventLoop_err (Filter.initialModel sys remote) msgs) as He.
  destruct (initialModel_fields sys remote) as (_ & _ & He' & _ & Hs').
  rewrite Hs' in Hs. rewrite He' in He. clear He' Hs' Hrun.
  revert Hs He.
  generalize (fst (Filter.eventLoop (Filter.initialModel sys remote) msgs)).
  intros [bs all c o r sel e fm ft fa]. FilterFacts.assign. intros -> ->.
  destruct fm, fa; cbn [Filter.eventLoop]; unfold Filter.Update,
    Filter.updateFilterMode, Filter.updateNormalMode; FilterFacts.assign;
    eval_keys; FilterFacts.assign; unfold Filter.finish; FilterFacts.assign;
    now destruct (snd (Filter.getRecentBranches sys remote)).
Qed.

(** ** [part_000]: runs of the move keys *)

Lemma Filter_down_from (bs all : list string) (r sel : bool)
    (e : option error) (ft : string) (fa : bool) (n : nat) :
  forall c o : Z,
    0 <= c <= Z.max 0 (sliceLen bs - 1) ->
    o = Z.max 0 (c - 9) ->
    Filter.eventLoop (Filter.mkModel bs all c o r sel e false ft fa)
      (presses "j" n)
    = (Filter.mkModel bs all
         (Z.min (c + Z.of_nat n) (Z.max 0 (sliceLen bs - 1)))
         (Z.max 0 (Z.min (c + Z.of_nat n) (Z.max 0 (sliceLen bs - 1)) - 9))
         r sel e false ft fa,
       false).
Proof.
  induction n as [|n IH]; intros c o Hc Ho.
  - cbn [presses repeat Filter.eventLoop]. do 2 f_equal; lia.
  - cbn [presses repeat Filter.eventLoop].
    unfold Filter.Update, Filter.updateNormalMode. FilterFacts.assign.
    eval_keys. FilterFacts.assign. split_ifs;
      unfold Filter.set_offset, Filter.set_cursor; FilterFacts.assign;
      (etransitivity; [apply IH; lia | do 2 f_equal; lia]).
Qed.

Lemma Filter_up_from (bs all : list string) (r sel : bool)
    (e : option error) (ft : string) (fa : bool) (n : nat) :
  forall c o : Z,
    0 <= o <= c ->
    Filter.eventLoop (Filter.mkModel bs all c o r sel e false ft fa)
      (presses "k" n)
    = (Filter.mkModel bs all
         (Z.max 0 (c - Z.of_nat n))
         (Z.min o (Z.max 0 (c - Z.of_nat n)))
         r sel e false ft fa,
       false).
Proof.
  induction n as [|n IH]; intros c o Hc.
  - cbn [presses repeat Filter.eventLoop]. do 2 f_equal; lia.
  - cbn [presses repeat Filter.eventLoop].
    unfold Filter.Update, Filter.updateNormalMode. FilterFacts.assign.
    eval_keys. FilterFacts.assign. split_ifs;
      unfold Filter.set_offset, Filter.set_cursor; FilterFacts.assign;
      (etransitivity; [apply IH; lia | do 2 f_equal; lia]).
Qed.

(** X7: [n] presses of [j] at the start of [part_000] put the cursor on
    entry [min(n, len-1)] (0 for an empty list) and the offset 9 entries
    above the cursor, at 0 if the cursor is among the first 10; nothing
    else changes and the loop keeps running. *)
Theorem Filter_down_n (sys : System) (remote : bool) (n : nat) :
  Filter.eventLoop (Filter.initialModel sys remote) (presses "j" n)
  = (Filter.set_offset
       (Z.max 0
          (Z.min (Z.of_nat n)
             (Z.max 0 (sliceLen (fst (Filter.getRecentBranches sys remote)) - 1))
           - 9))
       (Filter.set_cursor
          (Z.min (Z.of_nat n)
             (Z.max 0 (sliceLen (fst (Filter.getRecentBranches sys remote)) - 1)))
          (Filter.initialModel sys remote)),
     false).
Proof.
  unfold Filter.initialModel.
  destruct (Filter.getRecentBranches sys remote) as [bs e]. cbn [fst].
  rewrite (Filter_down_from bs bs remote false e "" false n 0 0) by lia.
  reflexivity.
Qed.

(** X8: in [part_000], [n] presses of [j] followed by [n] presses of [k]
    lead from the initial state back to the initial state. *)
Theorem Filter_down_up_round_trip (sys : System) (remote : bool) (n : nat) :
  Filter.eventLoop (Filter.initialModel sys remote)
    (presses "j" n ++ presses "k" n)
  = (Filter.initialModel sys remote, false).
Proof.
  unfold Filter.initialModel.
  destruct (Filter.getRecentBranches sys remote) as [bs e].
  pose proof (Filter_down_from bs bs remote false e "" false n 0 0
                ltac:(lia) ltac:(lia)) as Hd.
  rewrite eventLoop_app by (now rewrite Hd).
  rewrite Hd. cbn [fst].
  rewrite Filter_up_from by lia.
  do 2 f_equal; lia.
Qed.

(** ** [part_000]: typing into the filter and erasing *)

Lemma append_assoc (s t u : string) :
  ((s ++ t) ++ u = s ++ t ++ u)%string.
Proof. induction s as [|c s IH]; cbn; [reflexivity | now rewrite IH]. Qed.

Lemma applyFilter_filterMode (m : Filter.model) :
  Filter.filterMode (Filter.applyFilter m) = Filter.filterMode m.
Proof.
  destruct m. unfold Filter.applyFilter. FilterFacts.assign.
  split_ifs; reflexivity.
Qed.

(** X9: in filter mode of [part_000], typing a one-byte key and erasing
    it gives back the filter text; the visible list is then the branch
    list filtered by that text, cursor and offset 0, and the loop is still
    in filter mode. *)
Theorem Filter_type_erase (m : Filter.model) (key : string) :
  Filter.filterMode m = true ->
  len key = 1 ->
  exists m2 : Filter.model,
    Filter.eventLoop m [KeyMsg key; KeyMsg "backspace"] = (m2, false)
    /\ Filter.filterText m2 = Filter.filterText m
    /\ Filter.branches m2
       = filter (fun b => containsLower b (Filter.filterText m))
                (Filter.allBranches m)
    /\ Filter.cursor m2 = 0
    /\ Filter.offset m2 = 0
    /\ Filter.filterMode m2 = true.
Proof.
  intros Hf Hk. cbn [Filter.eventLoop].
  rewrite (Update_types m key Hf Hk).
  destruct (one_byte_key key Hk) as [c ->].
  set (m1 := Filter.applyFilter
               (Filter.set_filterText (Filter.filterText m ++ String c "") m)).
  destruct (applyFilter_spec
              (Filter.set_filterText (Filter.filterText m ++ String c "") m))
    as (_ & _ & _ & Ha1 & Ht1).
  fold m1 in Ha1, Ht1.
  assert (Filter.filterMode m1 = true) as Hf1.
  { unfold m1. rewrite applyFilter_filterMode. now destruct m. }
  assert (Filter.filterText m1 = (Filter.filterText m ++ String c "")%string)
    as Ht1' by (rewrite Ht1; now destruct m).
  assert (Filter.allBranches m1 = Filter.allBranches m)
    as Ha1' by (rewrite Ha1; now destruct m).
  rewrite (Update_erases m1 Hf1).
  2:{ rewrite Ht1'. now destruct (Filter.filterText m). }
  rewrite Ht1', length_append. cbn [String.length].
  replace (String.length (Filter.filterText m) + 1 - 1)%nat
    with (String.length (Filter.filterText m)) by lia.
  rewrite substring_prefix_app.
  destruct (applyFilter_spec
              (Filter.set_filterText (Filter.filterText m) m1))
    as (Hb & Hc & Ho & _ & Ht).
  eexists. split; [reflexivity|].
  rewrite Hb, Hc, Ho, Ht, applyFilter_filterMode.
  destruct m1; FilterFacts.assign. subst. now repeat split.
Qed.

(** ** [part_000]: the page that [View] draws *)

Lemma skipn_nth_cons {A} (l : list A) (k : nat) (x : A) :
  nth_error l k = Some x -> skipn k l = x :: skipn (S k) l.
Proof.
  revert k; induction l as [|y l IH]; intros [|k] H; cbn in *;
    try discriminate.
  - now injection H as ->.
  - now apply IH.
Qed.

(** The loop of [View] over indices inside the list appends the rows of
    the entries it passes. *)
Lemma viewRows_closed (st : Styles) (m : Filter.model) (n : nat) :
  forall (i : Z) (s : string),
    0 <= i -> i + Z.of_nat n <= sliceLen (Filter.branches m) ->
    Filter.viewRows st m i n s
    = Some (s ++ rows st
                   (firstn n (skipn (Z.to_nat i) (Filter.branches m)))
                   (Filter.cursor m - i))%string.
Proof.
  induction n as [|n IH]; intros i s Hi Hn.
  - cbn [Filter.viewRows firstn rows].
    f_equal. clear. induction s as [|c s IH]; cbn; [reflexivity|].
    now rewrite <- IH.
  - cbn [Filter.viewRows].
    destruct (sliceAt_inBounds (Filter.branches m) i) as [b Hb];
      [unfold inBounds; lia|].
    rewrite Hb. rewrite IH by lia.
    unfold sliceAt in Hb. destruct (Z.ltb_spec i 0); [lia|].
    rewrite (skipn_nth_cons _ _ _ Hb).
    replace (Z.to_nat (i + 1)) with (S (Z.to_nat i)) by lia.
    cbn [firstn rows]. rewrite append_assoc.
    replace (Filter.cursor m - (i + 1)) with (Filter.cursor m - i - 1) by lia.
    do 2 f_equal. f_equal. unfold row.
    destruct (Z.eqb_spec (Filter.cursor m) i) as [E|E];
      destruct (Z.eqb_spec (Filter.cursor m - i) 0); try lia; reflexivity.
Qed.

Lemma page_count (m : Filter.model) :
  0 <= Filter.offset m <= sliceLen (Filter.branches m) ->
  firstn
    (Z.to_nat
       ((if sliceLen (Filter.branches m) <? Filter.offset m + 10
         then sliceLen (Filter.branches m) else Filter.offset m + 10)
        - Filter.offset m))
    (skipn (Z.to_nat (Filter.offset m)) (Filter.branches m))
  = page m.
Proof.
  intros Ho. unfold page, sliceLen in *.
  destruct (Z.ltb_spec (Z.of_nat (List.length (Filter.branches m)))
              (Filter.offset m + 10)).
  - rewrite !firstn_all2; trivial; rewrite length_skipn; lia.
  - f_equal. lia.
Qed.

(** X10: in every state [part_000] reaches without a fetch error and with
    a non-empty visible list, [View] is the title, the rows of the at most
    10 entries from the offset on, an empty line and the footer of the
    mode. *)
Theorem View_page (st : Styles) (sys : System) (remote : bool)
    (msgs : list Msg) :
  snd (Filter.getRecentBranches sys remote) = None ->
  Filter.branches
    (fst (Filter.eventLoop (Filter.initialModel sys remote) msgs)) <> [] ->
  forall m, m = fst (Filter.eventLoop (Filter.initialModel sys remote) msgs) ->
    Filter.View st m
    = Some ((("Select a branch to checkout:" ++ nl ++ nl)
             ++ rows st (page m) (Filter.cursor m - Filter.offset m))
            ++ nl ++ Filter.viewFooter m)%string
    /\ (List.length (page m) <= 10)%nat.
Proof.
  intros He Hne m ->.
  pose proof (window_always sys remote msgs) as Hw.
  pose proof (eventLoop_err (Filter.initialModel sys remote) msgs) as He'.
  destruct (initialModel_fields sys remote) as (_ & _ & He'' & _).
  rewrite He'', He in He'. clear He''.
  revert Hne Hw He'.
  generalize (fst (Filter.eventLoop (Filter.initialModel sys remote) msgs)).
  intros m Hne ((Hwin & Ho) & H0 & Hc) Herr.
  apply sliceLen_nonempty in Hne. split.
  - unfold Filter.View. rewrite Herr.
    destruct (Z.eqb_spec (sliceLen (Filter.branches m)) 0); [lia|].
    cbv zeta.
    rewrite viewRows_closed.
    + rewrite page_count by lia. reflexivity.
    + lia.
    + destruct (Z.ltb_spec (sliceLen (Filter.branches m))
                  (Filter.offset m + 10)); lia.
  - unfold page. rewrite length_firstn. lia.
Qed.

Lemma rows_plain (st : Styles) (entries : list string) (k : Z) :
  k < 0 \/ Z.of_nat (List.length entries) <= k ->
  rows st entries k = plainRows st entries.
Proof.
  revert k; induction entries as [|b l IH]; intros k Hk; [reflexivity|].
  cbn [rows plainRows fold_right List.length] in *.
  destruct (Z.eqb_spec k 0); [lia|].
  fold (plainRows st l). rewrite IH; [reflexivity | lia].
Qed.

Lemma rows_marked (st : Styles) (before : list string) (b : string)
    (after : list string) :
  rows st (before ++ b :: after) (Z.of_nat (List.length before))
  = (plainRows st before ++ row st true b ++ plainRows st after)%string.
Proof.
  induction before as [|x l IH].
  - cbn [app List.length Z.of_nat rows plainRows fold_right append Z.eqb].
    rewrite rows_plain by lia. reflexivity.
  - cbn [app List.length rows plainRows fold_right].
    destruct (Z.eqb_spec (Z.of_nat (S (List.length l))) 0); [lia|].
    replace (Z.of_nat (S (List.length l)) - 1)
      with (Z.of_nat (List.length l)) by lia.
    rewrite IH. fold (plainRows st l). now rewrite append_assoc.
Qed.

(** X11: in every state [part_000] reaches with a non-empty visible list,
    the page holds the entry under the cursor, [cursor - offset] places
    from its top, and the rows drawn mark that entry and no other. *)
Theorem page_holds_cursor (st : Styles) (sys : System) (remote : bool)
    (msgs : list Msg) :
  Filter.branches
    (fst (Filter.eventLoop (Filter.initialModel sys remote) msgs)) <> [] ->
  forall m, m = fst (Filter.eventLoop (Filter.initialModel sys remote) msgs) ->
    exists before b after,
      page m = before ++ b :: after
      /\ Z.of_nat (List.length before) = Filter.cursor m - Filter.offset m
      /\ sliceAt (Filter.branches m) (Filter.cursor m) = Some b
      /\ rows st (page m) (Filter.cursor m - Filter.offset m)
         = (plainRows st before ++ row st true b ++ plainRows st after)%string.
Proof.
  intros Hne m ->.
  pose proof (window_always sys remote msgs) as Hw. revert Hne Hw.
  generalize (fst (Filter.eventLoop (Filter.initialModel sys remote) msgs)).
  intros m Hne ((Hwin & Ho) & H0 & Hc).
  apply sliceLen_nonempty in Hne.
  destruct (sliceAt_inBounds (Filter.branches m) (Filter.cursor m))
    as [b Hb]; [unfold inBounds; lia|].
  assert (nth_error (page m) (Z.to_nat (Filter.cursor m - Filter.offset m))
          = Some b) as Hp.
  { unfold page. rewrite nth_error_firstn.
    destruct (Nat.ltb_spec (Z.to_nat (Filter.cursor m - Filter.offset m)) 10);
      [|lia].
    rewrite nth_error_skipn.
    replace (Z.to_nat (Filter.offset m)
             + Z.to_nat (Filter.cursor m - Filter.offset m))%nat
      with (Z.to_nat (Filter.cursor m)) by lia.
    unfold sliceAt in Hb. now destruct (Z.ltb_spec (Filter.cursor m) 0); [lia|]. }
  destruct (nth_error_split _ _ Hp) as (before & after & Hpage & Hlen).
  exists before, b, after. rewrite Hpage.
  assert (Z.of_nat (List.length before) = Filter.cursor m - Filter.offset m)
    as Hk by lia.
  repeat apply conj; trivial.
  rewrite <- Hk. apply rows_marked.
Qed.

(** X12: in no state that [part_000] reaches does [View] panic on its
    index expression, whatever the styles render. *)
Theorem View_no_panic (st : Styles) (sys : System) (remote : bool)
    (msgs : list Msg) :
  Filter.View st
    (fst (Filter.eventLoop (Filter.initialModel sys remote) msgs)) <> None.
Proof.
  pose proof (window_always sys remote msgs) as Hw. revert Hw.
  generalize (fst (Filter.eventLoop (Filter.initialModel sys remote) msgs)).
  intros m ((Hwin & Ho) & H0 & Hc).
  unfold Filter.View. destruct (Filter.err m); [discriminate|].
  destruct (Z.eqb_spec (sliceLen (Filter.branches m)) 0).
  - destruct (Filter.filterMode m); discriminate.
  - cbv zeta. assert (0 <= sliceLen (Filter.branches m))
      by (unfold sliceLen; lia).
    rewrite viewRows_closed; [discriminate | lia |].
    destruct (Z.ltb_spec (sliceLen (Filter.branches m))
                (Filter.offset m + 10)); lia.
Qed.

End Claims.

(** ** [main.go]: what [main] does when the loop has ended *)

Module RemoteRuns.

Import Remote.

Lemma Remote_Update_fields (m : model) (msg : Msg) :
  branches (fst (Update m msg)) = branches m
  /\ remote (fst (Update m msg)) = remote m
  /\ err (fst (Update m msg)) = err m.
Proof.
  destruct msg as [key|]; [|now repeat split].
  destruct m; unfold Update; RemoteFacts.assign; split_ifs;
    now repeat split.
Qed.

Lemma Remote_eventLoop_fields (msgs : list Msg) : forall m : model,
  branches (fst (eventLoop m msgs)) = branches m
  /\ remote (fst (eventLoop m msgs)) = remote m
  /\ err (fst (eventLoop m msgs)) = err m.
Proof.
  induction msgs as [|msg msgs IH]; intros m; [now repeat split|].
  cbn [eventLoop]. pose proof (Remote_Update_fields m msg) as (Hb & Hr & He).
  destruct (Update m msg) as [m' [|]]; cbn [fst] in *.
  - destruct (IH m') as (Hb' & Hr' & He'). repeat split; congruence.
  - now repeat split.
Qed.

Lemma Remote_eventLoop_app (msgs more : list Msg) : forall m : model,
  snd (eventLoop m msgs) = false ->
  eventLoop m (msgs ++ more) = eventLoop (fst (eventLoop m msgs)) more.
Proof.
  induction msgs as [|msg msgs IH]; intros m H; [reflexivity|].
  cbn [eventLoop app] in *.
  destruct (Update m msg) as [m' [|]]; cbn [fst snd] in *.
  - now apply IH.
  - discriminate.
Qed.

Lemma Remote_initialModel_fields (sys : System) (r : bool) :
  branches (initialModel sys r) = fst (getRecentBranches sys r)
  /\ remote (initialModel sys r) = r
  /\ err (initialModel sys r) = snd (getRecentBranches sys r).
Proof. unfold initialModel. now destruct (getRecentBranches sys r). Qed.

End RemoteRuns.

(** X13: when a key has ended the event loop of [main.go] after a fetch
    that gave a non-empty branch list, [main] has run exactly one command,
    the checkout command line of one of the fetched branches, whichever key
    it was; after a failed fetch it has run nothing and exits with 1, and
    for an empty list it has run nothing and exits with 0.  It never
    panics. *)
Theorem Remote_main_result (sys : System) (remote : bool) (msgs : list Msg)
    (failure : option error) (res : Result) :
  snd (Remote.eventLoop (Remote.initialModel sys remote) msgs) = true ->
  Remote.main sys (Parsed remote) msgs failure = Some res ->
  match Remote.getRecentBranches sys remote with
  | (_, Some e) => res = Exit 1 ("Error: " ++ e ++ nl) []
  | ([], None) => res = Exit 0 "" []
  | (fetched, None) =>
      exists b code out,
        In b fetched
        /\ res = Exit code out [Remote.checkoutCommand b remote]
        /\ (code = 0 <-> Run sys (Remote.checkoutCommand b remote) = None)
  end.
Proof.
  unfold Remote.main. intros Hkey H.
  pose proof (RemoteFacts.eventLoop_invariant msgs _
                (RemoteFacts.initialModel_invariant sys remote)) as Hw.
  pose proof (RemoteRuns.Remote_eventLoop_fields msgs (Remote.initialModel sys remote))
    as (Hb & Hr & He).
  destruct (RemoteRuns.Remote_initialModel_fields sys remote) as (Hb' & Hr' & He').
  rewrite Hb' in Hb. rewrite Hr' in Hr. rewrite He' in He. clear Hb' Hr' He'.
  destruct (Remote.eventLoop (Remote.initialModel sys remote) msgs)
    as [m [|]]; [|discriminate Hkey]. cbn [fst] in *.
  injection H as <-.
  destruct (Remote.getRecentBranches sys remote) as [fetched [e|]];
    cbn [fst snd] in *.
  - unfold Remote.finish. rewrite He. now destruct fetched.
  - unfold Remote.finish. rewrite He, Hb.
    destruct fetched as [|b0 rest]; [reflexivity|].
    destruct Hw as (_ & H0 & Hc). rewrite Hb in Hc.
    destruct (sliceAt_inBounds (b0 :: rest) (Remote.cursor m)) as [b Hs].
    { unfold inBounds, sliceLen in *. cbn [List.length] in *. lia. }
    rewrite Hs, (sliceAt_nonempty _ _ _ Hs), Hr.
    unfold Remote.checkoutBranch.
    assert (In b (b0 :: rest)) as Hin.
    { unfold sliceAt in Hs. destruct (Remote.cursor m <? 0); [discriminate|].
      now apply nth_error_In in Hs. }
    destruct (Run sys (Remote.checkoutCommand b remote)) as [e|] eqn:Hrun;
      do 3 eexists; (split; [exact Hin|]); (split; [reflexivity|]);
      rewrite Hrun; split; intros; (discriminate || reflexivity).
Qed.

(** X14: [main.go] does not tell the quit key from the confirm key: after
    any messages that leave the loop running, ending it with [q] and
    ending it with [enter] give the same run of [main]. *)
Theorem Remote_quit_is_confirm (sys : System) (remote : bool)
    (msgs : list Msg) (failure : option error) :
  snd (Remote.eventLoop (Remote.initialModel sys remote) msgs) = false ->
  Remote.main sys (Parsed remote) (msgs ++ [KeyMsg "q"]) failure
  = Remote.main sys (Parsed remote) (msgs ++ [KeyMsg "enter"]) failure
  /\ Remote.main sys (Parsed remote) (msgs ++ [KeyMsg "q"]) failure <> None.
Proof.
  intros H. unfold Remote.main.
  rewrite !(RemoteRuns.Remote_eventLoop_app msgs _ _ H).
  cbn [Remote.eventLoop Remote.Update]. eval_keys.
  split; [reflexivity | discriminate].
Qed.

(** ** [part_001]: the local program *)

Module LocalRuns.

Import Local.

Ltac assign :=
  cbn [fst snd set_offset set_cursor branches cursor offset err] in *.

Lemma Local_initialModel_invariant sys :
  invariant (branches (initialModel sys)) (cursor (initialModel sys))
    (offset (initialModel sys)).
Proof.
  unfold initialModel. destruct (getRecentBranches sys) as [bs e].
  unfold invariant, window; assign. lia.
Qed.

Lemma Local_Update_invariant m msg :
  invariant (branches m) (cursor m) (offset m) ->
  invariant (branches (fst (Update m msg))) (cursor (fst (Update m msg)))
    (offset (fst (Update m msg))).
Proof.
  unfold invariant, window.
  destruct msg as [key|]; [|exact (fun H => H)].
  destruct m; unfold Update; assign; split_ifs; assign; lia.
Qed.

Lemma Local_Update_fields (m : model) (msg : Msg) :
  branches (fst (Update m msg)) = branches m
  /\ err (fst (Update m msg)) = err m.
Proof.
  destruct msg as [key|]; [|now repeat split].
  destruct m; unfold Update; assign; split_ifs; assign; now repeat split.
Qed.

Lemma Local_eventLoop_facts (msgs : list Msg) : forall m : model,
  invariant (branches m) (cursor m) (offset m) ->
  invariant (branches (fst (eventLoop m msgs)))
    (cursor (fst (eventLoop m msgs))) (offset (fst (eventLoop m msgs)))
  /\ branches (fst (eventLoop m msgs)) = branches m
  /\ err (fst (eventLoop m msgs)) = err m.
Proof.
  induction msgs as [|msg msgs IH]; intros m H;
    [split; [exact H | split; reflexivity]|].
  cbn [eventLoop]. pose proof (Local_Update_invariant m msg H) as H'.
  pose proof (Local_Update_fields m msg) as (Hb & He).
  destruct (Update m msg) as [m' [|]]; cbn [fst] in *.
  - destruct (IH m' H') as (Hi & Hb' & He').
    split; [exact Hi | split; congruence].
  - split; [exact H' | split; assumption].
Qed.

End LocalRuns.

(** X15: when a key has ended the event loop of [part_001] after a fetch
    that gave a non-empty branch list, [main] has run exactly
    [git checkout b] for one of the fetched branches [b], whichever key it
    was; after a failed fetch it has run nothing and exits with 1, and for
    an empty list it has run nothing and exits with 0.  It never
    panics. *)
Theorem Local_main_result (sys : System) (msgs : list Msg)
    (failure : option error) (res : Result) :
  snd (Local.eventLoop (Local.initialModel sys) msgs) = true ->
  Local.main sys msgs failure = Some res ->
  match Local.getRecentBranches sys with
  | (_, Some e) => res = Exit 1 ("Error: " ++ e ++ nl) []
  | ([], None) => res = Exit 0 "" []
  | (fetched, None) =>
      exists b code out,
        In b fetched
        /\ res = Exit code out [["git"; "checkout"; b]]
        /\ (code = 0 <-> Run sys ["git"; "checkout"; b] = None)
  end.
Proof.
  unfold Local.main. intros Hkey H.
  pose proof (LocalRuns.Local_eventLoop_facts msgs _
                (LocalRuns.Local_initialModel_invariant sys)) as (Hw & Hb & He).
  assert (Local.branches (Local.initialModel sys)
          = fst (Local.getRecentBranches sys)
          /\ Local.err (Local.initialModel sys)
             = snd (Local.getRecentBranches sys)) as (Hb' & He').
  { unfold Local.initialModel. now destruct (Local.getRecentBranches sys). }
  rewrite Hb' in Hb. rewrite He' in He. clear Hb' He'.
  destruct (Local.eventLoop (Local.initialModel sys) msgs)
    as [m [|]]; [|discriminate Hkey]. cbn [fst] in *.
  injection H as <-.
  destruct (Local.getRecentBranches sys) as [fetched [e|]];
    cbn [fst snd] in *.
  - unfold Local.finish. rewrite He. now destruct fetched.
  - unfold Local.finish. rewrite He, Hb.
    destruct fetched as [|b0 rest]; [reflexivity|].
    destruct Hw as (_ & H0 & Hc). rewrite Hb in Hc.
    destruct (sliceAt_inBounds (b0 :: rest) (Local.cursor m)) as [b Hs].
    { unfold inBounds, sliceLen in *. cbn [List.length] in *. lia. }
    rewrite Hs, (sliceAt_nonempty _ _ _ Hs).
    unfold Local.checkoutBranch, Local.checkoutCommand.
    assert (In b (b0 :: rest)) as Hin.
    { unfold sliceAt in Hs. destruct (Local.cursor m <? 0); [discriminate|].
      now apply nth_error_In in Hs. }
    destruct (Run sys ["git"; "checkout"; b]) as [e|] eqn:Hrun;
      do 3 eexists; (split; [exact Hin|]); (split; [reflexivity|]);
      rewrite Hrun; split; intros; (discriminate || reflexivity).
Qed.

(** ** Parsing: what a parsed branch name can be *)

Lemma Split_nonempty (s : string) (sep : ascii) : Split s sep <> [].
Proof.
  destruct s as [|c s]; cbn [Split]; [discriminate|].
  destruct (Ascii.eqb c sep); [discriminate|].
  now destruct (Split s sep).
Qed.

Lemma Split_no_sep (s : string) (sep : ascii) (b : string) :
  In b (Split s sep) -> Contains b (String sep "") = false.
Proof.
  revert b; induction s as [|c s IH]; intros b; cbn [Split].
  - intros [<-|[]]. reflexivity.
  - destruct (Ascii.eqb c sep) eqn:E.
    + intros [<-|H]; [reflexivity | now apply IH].
    + pose proof (Split_nonempty s sep) as Hne.
      destruct (Split s sep) as [|h r]; [contradiction|].
      cbn [consHead]. intros [<-|H].
      * rewrite Contains_byte, E. apply IH. now left.
      * apply IH. now right.
Qed.

(** X16: a branch name that [part_000] or [main.go] parses out of the
    output of [git for-each-ref] is never empty, never ends in [/HEAD] and
    never holds a line feed; [part_001] gives the first and the last. *)
Theorem parsed_names (output b : string) :
  (In b (Filter.parseBranches output) ->
   b <> "" /\ HasSuffix b "/HEAD" = false /\ Contains b nl = false)
  /\ (In b (Remote.parseBranches output) ->
      b <> "" /\ HasSuffix b "/HEAD" = false /\ Contains b nl = false)
  /\ (In b (Local.parseBranches output) ->
      b <> "" /\ Contains b nl = false).
Proof.
  rewrite Filter_parseBranches_spec, Remote_parseBranches_spec,
    Local_parseBranches_spec.
  assert (In b (branchLines output) ->
          b <> "" /\ HasSuffix b "/HEAD" = false /\ Contains b nl = false) as H.
  { intros Hin. apply branchLines_entries in Hin as (Hs & Hn & Hp).
    repeat split; trivial. now apply Split_no_sep with (s := TrimSpace output). }
  repeat split; try (now apply H).
  - unfold nonEmptyLines in H0. apply filter_In in H0 as (_ & Hn).
    apply negb_true_iff in Hn. now apply String.eqb_neq.
  - unfold nonEmptyLines in H0. apply filter_In in H0 as (Hs & _).
    now apply Split_no_sep with (s := TrimSpace output).
Qed.

(** ** Parsing the listing of plain branch names gives them back *)

Lemma HasSuffix_app (x r : string) : HasSuffix (x ++ r) r = true.
Proof.
  unfold HasSuffix. rewrite length_append.
  replace (String.length x + String.length r - String.length r)%nat
    with (String.length x) by lia.
  pose proof (substring_middle x r "") as H.
  assert ((r ++ "")%string = r) as Hr
    by (clear; induction r as [|c r IH]; cbn; [|rewrite IH]; reflexivity).
  rewrite Hr in H. rewrite H, String.eqb_refl.
  apply andb_true_iff. split; [apply Nat.leb_le; lia | reflexivity].
Qed.

Lemma HasSuffix_split (s r : string) :
  HasSuffix s r = true -> exists x, s = (x ++ r)%string.
Proof.
  unfold HasSuffix. intros H. apply andb_true_iff in H as [Hl He].
  apply Nat.leb_le in Hl. apply String.eqb_eq in He.
  pose proof (substring_split s (String.length s - String.length r)
                (String.length r) ltac:(lia)) as Hs.
  rewrite He in Hs.
  replace (String.length s - (String.length s - String.length r
                              + String.length r))%nat with 0%nat in Hs by lia.
  assert (forall n t, substring n 0 t = "") as H0.
  { clear. intros n t; revert n; induction t as [|c t IH]; intros [|n];
      cbn; auto. }
  rewrite H0 in Hs.
  assert ((r ++ "")%string = r) as Hr
    by (clear; induction r as [|c r IH]; cbn; [|rewrite IH]; reflexivity).
  rewrite Hr in Hs. eauto.
Qed.

Lemma lastByte_app (x r : string) :
  r <> "" -> lastByte (x ++ r) = lastByte r.
Proof.
  intros Hr. induction x as [|c x IH]; [reflexivity|].
  cbn [append lastByte]. rewrite IH.
  destruct (x ++ r)%string eqn:E; [|reflexivity].
  destruct x; cbn in E; [contradiction | discriminate].
Qed.

(** A string that ends in a plain byte ends in no white-space rune, and
    one that starts with a plain byte starts with none. *)
Lemma spaceRunes_ends :
  forallb (fun r => notPlain (lastByte r) && notPlain (firstByte r))
          spaceRunes = true.
Proof. vm_compute. reflexivity. Qed.

Lemma trailingSpace_plain (s : string) (c : ascii) :
  lastByte s = Some c -> plainByte c = true -> trailingSpace s = None.
Proof.
  intros Hs Hc. unfold trailingSpace.
  destruct (find (HasSuffix s) spaceRunes) as [r|] eqn:E; [|reflexivity].
  apply find_some in E as (Hin & Hsuf).
  pose proof (proj1 (forallb_forall _ _) spaceRunes_ends r Hin) as Hr.
  apply andb_true_iff in Hr as [Hr _].
  apply HasSuffix_split in Hsuf as [x ->].
  destruct r as [|d r]; [discriminate Hr|].
  rewrite lastByte_app in Hs by discriminate.
  rewrite Hs in Hr. cbn [notPlain] in Hr. now rewrite Hc in Hr.
Qed.

Lemma leadingSpace_plain (s : string) (c : ascii) :
  firstByte s = Some c -> plainByte c = true -> leadingSpace s = None.
Proof.
  intros Hs Hc. unfold leadingSpace.
  destruct (find (HasPrefix s) spaceRunes) as [r|] eqn:E; [|reflexivity].
  apply find_some in E as (Hin & Hpre).
  pose proof (proj1 (forallb_forall _ _) spaceRunes_ends r Hin) as Hr.
  apply andb_true_iff in Hr as [_ Hr].
  destruct r as [|d r]; [discriminate Hr|].
  destruct s as [|c' s]; [discriminate Hs|]. injection Hs as ->.
  cbn [HasPrefix] in Hpre. apply andb_true_iff in Hpre as [Hcd _].
  apply Ascii.eqb_eq in Hcd as ->.
  cbn [firstByte notPlain] in Hr. now rewrite Hc in Hr.
Qed.

Lemma plainName_bytes (b : string) :
  plainName b = true ->
  exists c d, firstByte b = Some c /\ plainByte c = true
              /\ lastByte b = Some d /\ plainByte d = true.
Proof.
  unfold plainName. intros H. apply andb_true_iff in H as [Hn Ha].
  destruct b as [|c b]; [discriminate Hn|]. clear Hn.
  cbn [allBytes] in Ha. apply andb_true_iff in Ha as [Hc Ha].
  exists c. revert c Hc. induction b as [|d b IH]; intros c Hc.
  - exists c. now repeat split.
  - cbn [allBytes] in Ha. apply andb_true_iff in Ha as [Hd Ha].
    destruct (IH Ha d Hd) as (d' & _ & _ & Hl & Hp).
    exists d'. repeat split; trivial.
Qed.

Lemma plainName_no_LF (b : string) :
  plainName b = true -> Contains b nl = false.
Proof.
  unfold plainName. intros H. apply andb_true_iff in H as [_ Ha].
  induction b as [|c b IH]; [reflexivity|].
  cbn [allBytes] in Ha. apply andb_true_iff in Ha as [Hc Ha].
  unfold nl. rewrite Contains_byte. fold nl. rewrite (IH Ha), orb_false_r.
  destruct (Ascii.eqb_spec c LF) as [->|]; [discriminate Hc | reflexivity].
Qed.

Lemma unlines_concat (b : string) (bs : list string) :
  unlines (b :: bs) = (concat nl (b :: bs) ++ nl)%string.
Proof.
  revert b; induction bs as [|b' bs IH]; intros b.
  - cbn [unlines fold_right concat]. reflexivity.
  - change (unlines (b :: b' :: bs)) with (b ++ nl ++ unlines (b' :: bs))%string.
    rewrite IH. cbn [concat]. now rewrite !append_assoc.
Qed.

Lemma firstByte_app (x y : string) :
  x <> "" -> firstByte (x ++ y) = firstByte x.
Proof. destruct x; [contradiction | reflexivity]. Qed.

Lemma concat_ends (b : string) (bs : list string) :
  forallb plainName (b :: bs) = true ->
  exists c d, firstByte (concat nl (b :: bs)) = Some c /\ plainByte c = true
              /\ lastByte (concat nl (b :: bs)) = Some d /\ plainByte d = true.
Proof.
  revert b; induction bs as [|b' bs IH]; intros b H;
    cbn [forallb] in H; apply andb_true_iff in H as [Hb H].
  - cbn [concat]. now apply plainName_bytes.
  - destruct (plainName_bytes b Hb) as (c & _ & Hc & Hpc & _).
    destruct (IH b' H) as (_ & d & _ & _ & Hd & Hpd).
    exists c, d.
    change (concat nl (b :: b' :: bs))
      with (b ++ nl ++ concat nl (b' :: bs))%string.
    set (t := concat nl (b' :: bs)) in *.
    assert (b <> "") as Hne by (intros ->; discriminate Hc).
    rewrite firstByte_app by exact Hne.
    repeat split; trivial.
    rewrite lastByte_app.
    + rewrite lastByte_app; [exact Hd|].
      intros E. rewrite E in Hd. discriminate Hd.
    + unfold nl. discriminate.
Qed.

Lemma trimLeft_none (fuel : nat) (s : string) :
  leadingSpace s = None -> trimLeft fuel s = s.
Proof. intros H. destruct fuel; cbn [trimLeft]; now rewrite ?H. Qed.

Lemma trimRight_none (fuel : nat) (s : string) :
  trailingSpace s = None -> trimRight fuel s = s.
Proof. intros H. destruct fuel; cbn [trimRight]; now rewrite ?H. Qed.

Lemma trailingSpace_LF (x : string) : trailingSpace (x ++ nl) = Some 1%nat.
Proof.
  unfold trailingSpace.
  assert (spaceRunes
          = String (ascii_of_nat 9) "" :: nl :: skipn 2 spaceRunes) as ->
    by reflexivity.
  cbn [find].
  destruct (HasSuffix (x ++ nl) (String (ascii_of_nat 9) "")) eqn:E.
  - apply HasSuffix_split in E as [y E].
    apply (f_equal lastByte) in E.
    rewrite !lastByte_app in E by discriminate. discriminate E.
  - now rewrite HasSuffix_app.
Qed.

(** [TrimSpace] takes the last line feed, and nothing else, off the
    listing of plain names. *)
Lemma TrimSpace_unlines (b : string) (bs : list string) :
  forallb plainName (b :: bs) = true ->
  TrimSpace (unlines (b :: bs)) = concat nl (b :: bs).
Proof.
  intros H. destruct (concat_ends b bs H) as (c & d & Hc & Hpc & Hd & Hpd).
  rewrite unlines_concat. unfold TrimSpace.
  assert (concat nl (b :: bs) <> "") as Hne
    by (intros E; rewrite E in Hc; discriminate Hc).
  rewrite trimLeft_none.
  2:{ apply leadingSpace_plain with (c := c); [|exact Hpc].
      now rewrite firstByte_app. }
  rewrite length_append. change (String.length nl) with 1%nat.
  replace (String.length (concat nl (b :: bs)) + 1)%nat
    with (S (String.length (concat nl (b :: bs)))) by lia.
  cbn [trimRight]. rewrite trailingSpace_LF, length_append.
  change (String.length nl) with 1%nat.
  replace (String.length (concat nl (b :: bs)) + 1 - 1)%nat
    with (String.length (concat nl (b :: bs))) by lia.
  rewrite substring_prefix_app.
  apply trimRight_none, trailingSpace_plain with (c := d); assumption.
Qed.

Lemma Split_no_sep_one (s : string) (sep : ascii) :
  Contains s (String sep "") = false -> Split s sep = [s].
Proof.
  induction s as [|c s IH]; intros H; [reflexivity|].
  rewrite Contains_byte in H. apply orb_false_iff in H as [Hc Hs].
  cbn [Split]. now rewrite Hc, (IH Hs).
Qed.

Lemma Split_first (b rest : string) (sep : ascii) :
  Contains b (String sep "") = false ->
  Split (b ++ String sep rest) sep = b :: Split rest sep.
Proof.
  induction b as [|c b IH]; intros H.
  - cbn [append Split]. now rewrite Ascii.eqb_refl.
  - rewrite Contains_byte in H. apply orb_false_iff in H as [Hc Hb].
    cbn [append Split]. now rewrite Hc, (IH Hb).
Qed.

Lemma Split_concat (b : string) (bs : list string) :
  forallb plainName (b :: bs) = true ->
  Split (concat nl (b :: bs)) LF = b :: bs.
Proof.
  revert b; induction bs as [|b' bs IH]; intros b H;
    cbn [forallb] in H; apply andb_true_iff in H as [Hb H].
  - cbn [concat]. apply Split_no_sep_one. now apply plainName_no_LF.
  - change (concat nl (b :: b' :: bs))
      with (b ++ String LF (concat nl (b' :: bs)))%string.
    rewrite Split_first by (now apply plainName_no_LF).
    now rewrite IH.
Qed.

(** X17: if git prints plain branch names (not empty, of printable ASCII
    bytes other than the space), each followed by a line feed, [part_001]
    parses exactly these names, in order; so do [part_000] and [main.go]
    when none of the names ends in [/HEAD]. *)
Theorem parse_listing_round_trip (bs : list string) :
  forallb plainName bs = true ->
  Local.parseBranches (unlines bs) = bs
  /\ (forallb (fun b => negb (isPointer b)) bs = true ->
      Filter.parseBranches (unlines bs) = bs
      /\ Remote.parseBranches (unlines bs) = bs).
Proof.
  intros H.
  rewrite Filter_parseBranches_spec, Remote_parseBranches_spec,
    Local_parseBranches_spec.
  assert (nonEmptyLines (unlines bs) = bs) as Hl.
  { unfold nonEmptyLines. destruct bs as [|b bs]; [reflexivity|].
    rewrite (TrimSpace_unlines b bs H), (Split_concat b bs H).
    apply forallb_filter_id. apply forallb_forall. intros x Hx.
    pose proof (proj1 (forallb_forall _ _) H x Hx) as Hp.
    unfold plainName in Hp. now apply andb_true_iff in Hp as [Hp _]. }
  split; [exact Hl|]. intros Hp.
  assert (branchLines (unlines bs) = bs) as Hb.
  { unfold branchLines. fold (nonEmptyLines (unlines bs)). rewrite Hl.
    now apply forallb_filter_id. }
  now split.
Qed.

(** * Runs on sample repositories *)

#[global] Existing Instance bytesLowering.

Lemma C3_window_invariant_witness :
  Filter.branches
    (fst (Filter.eventLoop (Filter.initialModel (repo twelve) false)
            (keys ["j"; "j"; "j"; "j"; "j"; "j"; "j"; "j"; "j"; "j"; "j"; "k"])))
  <> []
  /\ window
       (Filter.cursor
          (fst (Filter.eventLoop (Filter.initialModel (repo twelve) false)
             (keys ["j"; "j"; "j"; "j"; "j"; "j"; "j"; "j"; "j"; "j"; "j"; "k"]))))
       (Filter.offset
          (fst (Filter.eventLoop (Filter.initialModel (repo twelve) false)
             (keys ["j"; "j"; "j"; "j"; "j"; "j"; "j"; "j"; "j"; "j"; "j"; "k"])))).
Proof.
  split; [vm_compute; discriminate|].
  apply (C3_window_invariant (repo twelve) false); vm_compute; discriminate.
Defined.

Lemma C10_cursor_in_bounds_witness :
  inBounds ["feature/login"; "feature/signup"] 1
  /\ exists b, sliceAt ["feature/login"; "feature/signup"] 1 = Some b.
Proof.
  apply (C10_cursor_in_bounds (repo four) true
           (keys ["/"; "f"; "e"; "a"; "t"; "enter"; "j"; "enter"])
           (Filter.mkModel ["feature/login"; "feature/signup"] four 1 0 true
              true None false "feat" true)).
  - vm_compute. reflexivity.
  - cbn. discriminate.
Defined.

Lemma C7_navigation_witness :
  navigates "j" twelve 9 0 twelve 10 1 CmdNil
  /\ navigates "k" twelve 2 2 twelve 1 1 CmdNil.
Proof.
  destruct (C7_navigation (repo twelve) false
              (keys ["j"; "j"; "j"; "j"; "j"; "j"; "j"; "j"; "j"])
              (keys ["j"; "j"; "j"; "j"; "j"; "j"; "j"; "j"; "j"; "j"; "j";
                     "k"; "k"; "k"; "k"; "k"; "k"; "k"; "k"; "k"])
              "j") as [Hm _];
    [reflexivity | vm_compute; discriminate | vm_compute; discriminate |].
  destruct (C7_navigation (repo twelve) false
              (keys ["j"; "j"; "j"; "j"; "j"; "j"; "j"; "j"; "j"])
              (keys ["j"; "j"; "j"; "j"; "j"; "j"; "j"; "j"; "j"; "j"; "j";
                     "k"; "k"; "k"; "k"; "k"; "k"; "k"; "k"; "k"])
              "k") as [_ Hr];
    [reflexivity | vm_compute; discriminate | vm_compute; discriminate |].
  split.
  - exact (Hm _ eq_refl).
  - exact (Hr _ eq_refl).
Defined.

Lemma C9_filtering_never_terminates_witness :
  snd (Filter.Update
         (Filter.mkModel four four 0 0 false false None true "fe" false)
         (KeyMsg "q")) = CmdNil.
Proof.
  apply (C9_filtering_never_terminates
           (Filter.mkModel four four 0 0 false false None true "fe" false) "q").
  reflexivity.
Defined.

Lemma C6_commit_then_clear_witness :
  exists m' : Filter.model,
    Filter.eventLoop
      (fst (Filter.eventLoop (Filter.initialModel (repo four) false)
              (keys ["j"; "/"; "F"; "E"; "A"; "T"])))
      [KeyMsg "enter"; KeyMsg "esc"] = (m', false)
    /\ Filter.branches m' = fst (Filter.getRecentBranches (repo four) false)
    /\ Filter.cursor m' = 0
    /\ Filter.offset m' = 0
    /\ Filter.filteredApplied m' = false
    /\ Filter.filterMode m' = false.
Proof.
  apply (C6_commit_then_clear (repo four) false
           (keys ["j"; "/"; "F"; "E"; "A"; "T"])).
  vm_compute. reflexivity.
Defined.

(** The scenario of the specification: typing [/feat] leaves the two
    feature branches, cursor on the first. *)
Example filter_scenario :
  let m := fst (Filter.eventLoop (Filter.initialModel (repo four) false)
                  (keys ["/"; "f"; "e"; "a"; "t"])) in
  Filter.branches m = ["feature/login"; "feature/signup"]
  /\ Filter.cursor m = 0.
Proof. split; reflexivity. Qed.

Lemma C5_remote_checkout_witness :
  exists code out,
    Filter.finish (repo ["origin/main"; "origin/feature/x"])
      (Filter.mkModel ["origin/main"; "origin/feature/x"]
         ["origin/main"; "origin/feature/x"] 1 0 true true None false "" false)
    = Exit code out [Filter.checkoutCommand "origin/feature/x" true].
Proof.
  apply (C5_remote_checkout (repo ["origin/main"; "origin/feature/x"])
           (Filter.mkModel ["origin/main"; "origin/feature/x"]
              ["origin/main"; "origin/feature/x"] 1 0 true true None false ""
              false)
           "origin/feature/x"); reflexivity.
Defined.

(** C2, refuted as stated: with an empty branch list the confirm key is
    not a no-op, [Update] answers [tea.Quit]. *)
Lemma C2_confirm_quits_on_empty_list :
  Filter.filterMode (Filter.initialModel (repo []) false) = false
  /\ Filter.branches (Filter.initialModel (repo []) false) = []
  /\ snd (Filter.Update (Filter.initialModel (repo []) false) (KeyMsg "enter"))
     = Quit
  /\ ~ confirmTerminatesIffNonEmpty (Filter.initialModel (repo []) false).
Proof.
  repeat apply conj; try reflexivity.
  unfold confirmTerminatesIffNonEmpty. intros [H _]. now apply H.
Qed.

Lemma C2_confirm_always_quits_witness :
  Filter.Update (Filter.initialModel (repo four) false) (KeyMsg "enter")
  = (Filter.set_selected true (Filter.initialModel (repo four) false), Quit).
Proof.
  apply (C2_confirm_always_quits (repo four)
           (Filter.initialModel (repo four) false)).
  - reflexivity.
  - reflexivity.
  - right. vm_compute. split; [discriminate | reflexivity].
Defined.

Example parse_remote_listing :
  Filter.parseBranches
    (unlines ["origin/HEAD"; "origin/main"; ""; "origin/feature/x"])
  = ["origin/main"; "origin/feature/x"].
Proof. reflexivity. Qed.

Example TrimSpace_runes :
  TrimSpace (" " ++ bytes [194; 160]%nat ++ "a b"
             ++ bytes [226; 128; 168; 10]%nat)%string
  = "a b".
Proof. reflexivity. Qed.

(** The same input on [part_000]: nothing is run. *)
Example Filter_quit_runs_nothing :
  Filter.main (repo ["main"]) (Parsed false) [KeyMsg "q"] None
  = Some (Exit 0 "" []).
Proof. reflexivity. Qed.

(** A failed fetch: the quit key ends the loop and the process exits
    with 1, the error printed. *)
Example Filter_quit_after_failed_fetch :
  Filter.main noRepo (Parsed false) [KeyMsg "q"] None
  = Some (Exit 1 ("Error: exit status 128" ++ nl) []).
Proof. reflexivity. Qed.

(** The scenario of the specification: [/feat], [enter] to keep the
    filter, [enter] to pick the branch under the cursor. *)
Example Filter_select_filtered :
  Filter.main (repo four) (Parsed false)
    (keys ["/"; "f"; "e"; "a"; "t"; "enter"; "enter"]) None
  = Some (Exit 0 ("Checking out: feature/login" ++ nl)
            [["git"; "checkout"; "feature/login"]]).
Proof. reflexivity. Qed.

Lemma Update_list_change_resets_witness :
  Filter.cursor
    (fst (Filter.Update
            (Filter.mkModel four four 3 0 false false None true "" false)
            (KeyMsg "m"))) = 0
  /\ Filter.offset
       (fst (Filter.Update
               (Filter.mkModel four four 3 0 false false None true "" false)
               (KeyMsg "m"))) = 0.
Proof.
  apply (Update_list_change_resets
           (Filter.mkModel four four 3 0 false false None true "" false)
           (KeyMsg "m")).
  vm_compute. discriminate.
Defined.

Lemma Filter_main_safe_witness :
  exists code out ran,
    Exit 0 ("Checking out: develop" ++ nl) [["git"; "checkout"; "develop"]]
    = Exit code out ran
    /\ (ran = []
        \/ exists remote b,
             Parsed false = Parsed remote
             /\ In b (fst (Filter.getRecentBranches (repo four) remote))
             /\ ran = [Filter.checkoutCommand b remote]).
Proof.
  apply (Filter_main_safe (repo four) (Parsed false) (keys ["j"; "enter"])
           None).
  reflexivity.
Defined.

Lemma Filter_checkout_needs_enter_witness :
  In (KeyMsg "enter") (keys ["j"; "enter"]).
Proof.
  apply (Filter_checkout_needs_enter (repo four) (Parsed false)
           (keys ["j"; "enter"]) None
           0 ("Checking out: develop" ++ nl) [["git"; "checkout"; "develop"]]).
  - reflexivity.
  - discriminate.
Defined.

Lemma Filter_exit_code_witness :
  (1 = 0 \/ 1 = 1)
  /\ (1 = 0
      <-> snd (Filter.getRecentBranches (repo four) false) = None
          /\ snd (Filter.eventLoop (Filter.initialModel (repo four) false)
                    (keys ["j"]))
             = true
          /\ forall cmd, In cmd [] -> Run (repo four) cmd = None).
Proof.
  apply (Filter_exit_code (repo four) (Parsed false) (keys ["j"])
           (Some "could not open a new TTY") 1
           ("Error: could not open a new TTY" ++ nl) []).
  reflexivity.
Defined.

Lemma Filter_esc_twice_cancels_witness :
  Filter.main (repo four) (Parsed false)
    (keys ["/"; "f"; "enter"; "j"; "/"; "e"] ++ [KeyMsg "esc"; KeyMsg "esc"])
    None
  = Some (Exit 0 "" []).
Proof.
  apply (Filter_esc_twice_cancels (repo four) false
           (keys ["/"; "f"; "enter"; "j"; "/"; "e"]) None).
  reflexivity.
Defined.

Lemma Filter_type_erase_witness :
  exists m2 : Filter.model,
    Filter.eventLoop
      (Filter.mkModel ["feature/login"; "feature/signup"] four 1 0 false false
         None true "fe" false)
      [KeyMsg "x"; KeyMsg "backspace"] = (m2, false)
    /\ Filter.filterText m2 = "fe"
    /\ Filter.branches m2 = filter (fun b => containsLower b "fe") four
    /\ Filter.cursor m2 = 0
    /\ Filter.offset m2 = 0
    /\ Filter.filterMode m2 = true.
Proof.
  apply (Filter_type_erase
           (Filter.mkModel ["feature/login"; "feature/signup"] four 1 0 false
              false None true "fe" false) "x"); reflexivity.
Defined.

Lemma View_page_witness :
  Filter.View (mkStyles (fun s => s) (fun s => s))
    (fst (Filter.eventLoop (Filter.initialModel (repo twelve) false)
            (presses "j" 11)))
  = Some ((("Select a branch to checkout:" ++ nl ++ nl)
           ++ rows (mkStyles (fun s => s) (fun s => s))
                (page (fst (Filter.eventLoop
                              (Filter.initialModel (repo twelve) false)
                              (presses "j" 11))))
                (11 - 2))
          ++ nl ++ "(/ to filter, j/k to move, enter to select, q to quit)"
          ++ nl)%string
  /\ (List.length
        (page (fst (Filter.eventLoop (Filter.initialModel (repo twelve) false)
                      (presses "j" 11)))) <= 10)%nat.
Proof.
  apply (View_page (mkStyles (fun s => s) (fun s => s)) (repo twelve) false
           (presses "j" 11));
    [reflexivity | vm_compute; discriminate | reflexivity].
Defined.

Lemma page_holds_cursor_witness :
  exists before b after,
    page (fst (Filter.eventLoop (Filter.initialModel (repo twelve) false)
                 (presses "j" 11)))
    = before ++ b :: after
    /\ Z.of_nat (List.length before) = 11 - 2
    /\ sliceAt twelve 11 = Some b
    /\ rows (mkStyles (fun s => s) (fun s => s))
         (page (fst (Filter.eventLoop (Filter.initialModel (repo twelve) false)
                       (presses "j" 11))))
         (11 - 2)
       = (plainRows (mkStyles (fun s => s) (fun s => s)) before
          ++ row (mkStyles (fun s => s) (fun s => s)) true b
          ++ plainRows (mkStyles (fun s => s) (fun s => s)) after)%string.
Proof.
  apply (page_holds_cursor (mkStyles (fun s => s) (fun s => s)) (repo twelve)
           false (presses "j" 11));
    [vm_compute; discriminate | reflexivity].
Defined.

Lemma Remote_main_result_witness :
  exists b code out,
    In b four
    /\ Exit 0 ("Checking out: develop" ++ nl) [["git"; "checkout"; "develop"]]
       = Exit code out [Remote.checkoutCommand b false]
    /\ (code = 0 <-> Run (repo four) (Remote.checkoutCommand b false) = None).
Proof.
  apply (Remote_main_result (repo four) false (keys ["j"; "q"]) None);
    reflexivity.
Defined.

Lemma Remote_quit_is_confirm_witness :
  Remote.main (repo four) (Parsed true) (keys ["j"; "j"] ++ [KeyMsg "q"]) None
  = Remote.main (repo four) (Parsed true) (keys ["j"; "j"] ++ [KeyMsg "enter"])
      None
  /\ Remote.main (repo four) (Parsed true) (keys ["j"; "j"] ++ [KeyMsg "q"])
       None <> None.
Proof.
  apply (Remote_quit_is_confirm (repo four) true (keys ["j"; "j"]) None).
  reflexivity.
Defined.

Lemma Local_main_result_witness :
  exists b code out,
    In b four
    /\ Exit 0 ("Checking out: main" ++ nl) [["git"; "checkout"; "main"]]
       = Exit code out [["git"; "checkout"; b]]
    /\ (code = 0 <-> Run (repo four) ["git"; "checkout"; b] = None).
Proof.
  apply (Local_main_result (repo four) (keys ["k"; "ctrl+c"]) None);
    reflexivity.
Defined.

Lemma parsed_names_witness :
  "origin/main"%string <> ""%string
  /\ HasSuffix "origin/main" "/HEAD" = false
  /\ Contains "origin/main" nl = false.
Proof.
  apply (proj1 (parsed_names (unlines ["origin/HEAD"; "origin/main"])
                  "origin/main")).
  vm_compute. auto.
Defined.

Lemma parse_listing_round_trip_witness :
  Local.parseBranches (unlines four) = four
  /\ (forallb (fun b => negb (isPointer b)) four = true ->
      Filter.parseBranches (unlines four) = four
      /\ Remote.parseBranches (unlines four) = four).
Proof.
  apply (parse_listing_round_trip four). reflexivity.
Defined.

(** A flag that [flag.Parse()] rejects: status 2, nothing fetched or run. *)
Example Filter_rejected_flag :
  Filter.main (repo four) (FlagExit 2) (keys ["enter"]) None
  = Some (Exit 2 "" []).
Proof. reflexivity. Qed.

(** A terminal that cannot be opened: [p.Run()] fails at once, status 1. *)
Example Filter_no_terminal :
  Filter.main (repo four) (Parsed false) [] (Some "could not open a new TTY")
  = Some (Exit 1 ("Error: could not open a new TTY" ++ nl) []).
Proof. reflexivity. Qed.

(** A name outside ASCII: with a lowering that maps the Kelvin sign to [k],
    the filter text [k] keeps the branch named by that sign. *)
Example filter_kelvin_sign :
  Filter.branches
    (@Filter.applyFilter kelvinLowering
       (Filter.mkModel [] [bytes [226; 132; 170]%nat; "k"; "y"] 0 0
          false false None true "k" false))
  = [bytes [226; 132; 170]%nat; "k"].
Proof. reflexivity. Qed.
